(** * ConsoleLocaleTimestamp: a console decorator that prefixes a timestamp

    A shallow embedding of [src/ConsoleLocaleTimestamp.ts].  The class keeps
    five private fields, validates its four constructor arguments by their
    [Object.prototype.toString] class, and exposes nineteen wrappers of the
    host console.  Every wrapper that prints first writes a timestamp to
    [process.stdout] or [process.stderr] and then calls the console.

    JavaScript values are an inductive type; the object under construction
    and the outside world (clock, output streams, console) are threaded
    through a small state-and-exception monad.  The host's time formatter
    is a parameter that returns a rendering or throws. *)

From Stdlib Require Import String List ZArith Bool Lia DecimalString.
Import ListNotations.
Open Scope string_scope.
Open Scope Z_scope.

(** ** JavaScript values *)

(** The values a caller can hand to the class.  Arrays keep their holes
    ([None]): [Array.prototype.every] skips them and an index read on one
    yields [undefined].  Numbers are integer valued, only their class and
    their truthiness are ever inspected. *)
#[local] Set Warnings "-register-all".
Inductive JsValue : Type :=
| JsUndefined
| JsNull
| JsBoolean (b : bool)
| JsNumber (n : Z)
| JsString (s : string)
| JsFunction (source : string)
| JsObject (props : list (string * JsValue))
| JsArray (elems : list (option JsValue)).
#[local] Set Warnings "register-all".

(** [Object.prototype.toString.call(v)]. *)
Definition Object_prototype_toString_call (v : JsValue) : string :=
  match v with
  | JsUndefined => "[object Undefined]"
  | JsNull => "[object Null]"
  | JsBoolean _ => "[object Boolean]"
  | JsNumber _ => "[object Number]"
  | JsString _ => "[object String]"
  | JsFunction _ => "[object Function]"
  | JsObject _ => "[object Object]"
  | JsArray _ => "[object Array]"
  end.

(** [v === undefined]. *)
Definition is_undefined (v : JsValue) : bool :=
  match v with JsUndefined => true | _ => false end.

(** ECMAScript [ToBoolean], the test behind [!condition]. *)
Definition ToBoolean (v : JsValue) : bool :=
  match v with
  | JsUndefined | JsNull => false
  | JsBoolean b => b
  | JsNumber n => negb (n =? 0)
  | JsString s => negb (s =? "")%string
  | JsFunction _ | JsObject _ | JsArray _ => true
  end.

(** The element slots of an array; the class only reads them after the
    [[object Array]] test has passed. *)
Definition elements (v : JsValue) : list (option JsValue) :=
  match v with JsArray l => l | _ => [] end.

(** [a.length]. *)
Definition length_ (a : JsValue) : Z := Z.of_nat (length (elements a)).

(** [a[i]]: a hole or an index past the end reads as [undefined]. *)
Definition index (a : JsValue) (i : nat) : JsValue :=
  match nth_error (elements a) i with
  | Some (Some v) => v
  | _ => JsUndefined
  end.

(** [a.every(p)]: the callback is not called on holes. *)
Definition every (p : JsValue -> bool) (a : JsValue) : bool :=
  forallb (fun slot => match slot with Some v => p v | None => true end)
          (elements a).

(** ** Exceptions *)

Inductive ErrorKind : Type := TypeError | RangeError | Error.

Record Exception : Type := mkException {
  kind : ErrorKind;
  message : string
}.

Inductive Completion (A : Type) : Type :=
| Normal (a : A)
| Throw (e : Exception).
Arguments Normal {A} a.
Arguments Throw {A} e.

(** ** The host *)

(** What the class calls but does not define.  The locale-aware formatter
    [Date.prototype.toLocaleTimeString], applied to the instant read by
    [new Date()], either returns the rendered time or throws: a locale that
    is a string but not a well-formed tag, or an options object with a value
    out of range, passes the constructor and makes the formatter throw a
    [RangeError].  [toPrimitiveString] is the string conversion of numbers
    and of non-primitive values inside a template literal. *)
Record Host : Type := mkHost {
  toLocaleTimeString : Z -> JsValue -> JsValue -> Completion string;
  toPrimitiveString : JsValue -> string
}.

(** ECMAScript [ToString], as a template literal applies it. *)
Definition ToString (host : Host) (v : JsValue) : string :=
  match v with
  | JsUndefined => "undefined"
  | JsNull => "null"
  | JsBoolean true => "true"
  | JsBoolean false => "false"
  | JsString s => s
  | other => toPrimitiveString host other
  end.

(** ** Events and the machine state *)

(** The operations of the host console that the class wraps. *)
Inductive ConsoleMethod : Type :=
| console_assert | console_clear | console_debug | console_error
| console_info | console_log | console_table | console_trace
| console_warn | console_dir | console_dirxml | console_count
| console_countReset | console_group | console_groupCollapsed
| console_groupEnd | console_time | console_timeLog | console_timeEnd.

(** What the outside world observes, in the order it happens. *)
Inductive Event : Type :=
| StdoutWrite (chunk : string)
| StderrWrite (chunk : string)
| ConsoleCall (method : ConsoleMethod) (args : list JsValue).

Record World : Type := mkWorld {
  now : Z;                 (* the instant [new Date()] reads, in ms *)
  events : list Event      (* oldest first *)
}.

(** The private fields [#locales], [#options], [#openQuote], [#closeQuote]
    and [#separator]. *)
Record Fields : Type := mkFields {
  locales : JsValue;
  options : JsValue;
  openQuote : JsValue;
  closeQuote : JsValue;
  separator : JsValue
}.

Record Machine : Type := mkMachine {
  this : Fields;
  world : World
}.

(** Computations over the machine that may throw. *)
Definition M (A : Type) : Type := Machine -> Completion A * Machine.

Definition ret {A : Type} (a : A) : M A := fun m => (Normal a, m).

Definition bind {A B : Type} (c : M A) (k : A -> M B) : M B :=
  fun m =>
    match c m with
    | (Normal a, m') => k a m'
    | (Throw e, m') => (Throw e, m')
    end.

Definition throw {A : Type} (k : ErrorKind) (msg : string) : M A :=
  fun m => (Throw (mkException k msg), m).

Definition when (b : bool) (c : M unit) : M unit :=
  if b then c else ret tt.

Declare Scope js_scope.
Delimit Scope js_scope with js.
Notation "c1 ;; c2" := (bind c1 (fun _ => c2))
  (at level 61, right associativity) : js_scope.
Open Scope js_scope.

(** Field assignment [this.#f = v]. *)
Definition with_locales (v : JsValue) (f : Fields) : Fields :=
  mkFields v (options f) (openQuote f) (closeQuote f) (separator f).

Definition with_options (v : JsValue) (f : Fields) : Fields :=
  mkFields (locales f) v (openQuote f) (closeQuote f) (separator f).

Definition with_openQuote (v : JsValue) (f : Fields) : Fields :=
  mkFields (locales f) (options f) v (closeQuote f) (separator f).

Definition with_closeQuote (v : JsValue) (f : Fields) : Fields :=
  mkFields (locales f) (options f) (openQuote f) v (separator f).

Definition with_separator (v : JsValue) (f : Fields) : Fields :=
  mkFields (locales f) (options f) (openQuote f) (closeQuote f) v.

Definition assign (update : Fields -> Fields) : M unit :=
  fun m => (Normal tt, mkMachine (update (this m)) (world m)).

Definition set_locales (v : JsValue) : M unit := assign (with_locales v).
Definition set_options (v : JsValue) : M unit := assign (with_options v).
Definition set_openQuote (v : JsValue) : M unit := assign (with_openQuote v).
Definition set_closeQuote (v : JsValue) : M unit := assign (with_closeQuote v).
Definition set_separator (v : JsValue) : M unit := assign (with_separator v).

Definition emit (e : Event) : M unit := fun m =>
  (Normal tt,
   mkMachine (this m) (mkWorld (now (world m)) (events (world m) ++ [e]))).

Definition process_stdout_write (chunk : string) : M unit :=
  emit (StdoutWrite chunk).

Definition process_stderr_write (chunk : string) : M unit :=
  emit (StderrWrite chunk).

Definition console (method : ConsoleMethod) (args : list JsValue) : M unit :=
  emit (ConsoleCall method args).

(** The machine [m] after the world has seen the further events [more]. *)
Definition extended (m : Machine) (more : list Event) : Machine :=
  mkMachine (this m) (mkWorld (now (world m)) (events (world m) ++ more)).

(** ** Construction *)

(** The field initialisers, run before the constructor body. *)
Definition initial_fields : Fields :=
  mkFields JsUndefined JsUndefined (JsString "") (JsString "") (JsString " ").

Definition is_class (c : string) (v : JsValue) : bool :=
  (Object_prototype_toString_call v =? c)%string.

(** The constructor body, one definition per [if] block.  An omitted
    argument is [undefined]. *)
Definition locales_block (locales : JsValue) : M unit :=
  when (negb (is_undefined locales))
    (when (negb (is_class "[object String]" locales))
       (throw TypeError "The argument `locales` must be an String.") ;;
     set_locales locales).

Definition options_block (options : JsValue) : M unit :=
  when (negb (is_undefined options))
    (when (negb (is_class "[object Object]" options))
       (throw TypeError "The argument `options` must be an Object.") ;;
     set_options options).

Definition quote_block (quote : JsValue) : M unit :=
  when (negb (is_undefined quote))
    ((if negb (is_class "[object Array]" quote) then
        throw TypeError "The argument `quote` must be an Array."
      else if (length_ quote <? 1) || (length_ quote >? 2) then
        throw RangeError "The argument `quote` must be an Array of length 1 or 2."
      else if negb (every (is_class "[object String]") quote) then
        throw TypeError "The contents of the Array of arguments `quote` must be a String."
      else ret tt) ;;
     set_openQuote (index quote 0) ;;
     set_closeQuote (if length_ quote =? 1 then index quote 0 else index quote 1)).

Definition separator_block (separator : JsValue) : M unit :=
  when (negb (is_undefined separator))
    (when (negb (is_class "[object String]" separator))
       (throw TypeError "The argument `separator` must be an String.") ;;
     set_separator separator).

Definition constructor_ (locales options quote separator : JsValue) : M unit :=
  locales_block locales ;;
  options_block options ;;
  quote_block quote ;;
  separator_block separator.

(** [new ConsoleLocaleTimestamp(locales, options, quote, separator)]: the
    caller receives the object only when the body completes normally. *)
Definition new_ConsoleLocaleTimestamp
    (locales options quote separator : JsValue) (w : World)
  : Completion Fields * World :=
  match constructor_ locales options quote separator
          (mkMachine initial_fields w) with
  | (Normal _, m) => (Normal (this m), world m)
  | (Throw e, m) => (Throw e, world m)
  end.

(** ** The input shapes the specification names *)

(** An argument is provided when it is not [undefined]. *)
Definition provided (v : JsValue) : Prop := v <> JsUndefined.

Definition is_string (v : JsValue) : Prop := exists s, v = JsString s.

Definition is_key_value_object (v : JsValue) : Prop :=
  exists props, v = JsObject props.

Definition is_sequence (v : JsValue) : Prop := exists elems, v = JsArray elems.

(** A sequence of textual values holds a string at each of its positions;
    the position of a hole reads [undefined], which is not a string. *)
Definition has_non_string_position (q : JsValue) : Prop :=
  exists i : nat, Z.of_nat i < length_ q /\ ~ is_string (index q i).

Definition violates_shape (locales options quote separator : JsValue) : Prop :=
  (provided locales /\ ~ is_string locales)
  \/ (provided options /\ ~ is_key_value_object options)
  \/ (provided quote
      /\ (~ is_sequence quote \/ length_ quote = 0 \/ length_ quote >= 3
          \/ has_non_string_position quote))
  \/ (provided separator /\ ~ is_string separator).

(** What the [every] test of the constructor finds: a value present in the
    array that is not a string.  The holes of a sparse array are not
    visited. *)
Definition contains_non_string_element (q : JsValue) : Prop :=
  exists v, In (Some v) (elements q) /\ ~ is_string v.

(** The specification's [InvalidArgument]: the [TypeError]s and the
    [RangeError] of the constructor. *)
Definition InvalidArgument (e : Exception) : Prop :=
  kind e = TypeError \/ kind e = RangeError.

(** The tests of the constructor, one boolean per argument. *)
Definition string_or_omitted (v : JsValue) : bool :=
  is_undefined v || is_class "[object String]" v.

Definition object_or_omitted (v : JsValue) : bool :=
  is_undefined v || is_class "[object Object]" v.

Definition quote_accepted (q : JsValue) : bool :=
  is_undefined q
  || (is_class "[object Array]" q
      && negb ((length_ q <? 1) || (length_ q >? 2))
      && every (is_class "[object String]") q).

(** The quotes the constructor stores for an accepted [quote]. *)
Definition open_of (q : JsValue) : JsValue :=
  if is_undefined q then JsString "" else index q 0.

Definition close_of (q : JsValue) : JsValue :=
  if is_undefined q then JsString ""
  else if length_ q =? 1 then index q 0 else index q 1.

Definition separator_of (s : JsValue) : JsValue :=
  if is_undefined s then JsString " " else s.

(** How far the constructor got when it stopped. *)
Inductive stopped (l o q s : JsValue) : Completion unit -> Fields -> Prop :=
| stopped_at_locales (e : Exception) :
    string_or_omitted l = false -> InvalidArgument e ->
    stopped l o q s (Throw e) initial_fields
| stopped_at_options (e : Exception) :
    string_or_omitted l = true -> object_or_omitted o = false ->
    InvalidArgument e ->
    stopped l o q s (Throw e) (with_locales l initial_fields)
| stopped_at_quote (e : Exception) :
    string_or_omitted l = true -> object_or_omitted o = true ->
    quote_accepted q = false -> InvalidArgument e ->
    stopped l o q s (Throw e)
            (with_options o (with_locales l initial_fields))
| stopped_at_separator (e : Exception) :
    string_or_omitted l = true -> object_or_omitted o = true ->
    quote_accepted q = true -> string_or_omitted s = false ->
    InvalidArgument e ->
    stopped l o q s (Throw e)
            (mkFields l o (open_of q) (close_of q) (JsString " "))
| completed :
    string_or_omitted l = true -> object_or_omitted o = true ->
    quote_accepted q = true -> string_or_omitted s = true ->
    stopped l o q s (Normal tt)
            (mkFields l o (open_of q) (close_of q) (separator_of s)).

(** ** The timestamp and the wrappers *)

(** The private table [#LOG_LEVEL]. *)
Record LogLevelTable : Type := mkLogLevelTable {
  log_ : string;
  info_ : string;
  warn_ : string;
  error_ : string
}.

Definition LOG_LEVEL : LogLevelTable :=
  mkLogLevelTable "log" "info" "warn" "error".

(** The line feed of the literal ['\n']. *)
Definition newline : string := String (Ascii.ascii_of_nat 10) "".

Definition undefined_logLevel_message : string :=
  "An undefined `logLevel` was specified as an argument. `logLevel` must be one of the groups defined below. <https://console.spec.whatwg.org/#loglevel-severity>".

Section Wrappers.

Variable host : Host.

(** The host's rendering of the instant [new Date()] reads, under the stored
    locale and options. *)
Definition rendering (m : Machine) : Completion string :=
  toLocaleTimeString host (now (world m)) (locales (this m)) (options (this m)).

(** The template literal of [_printTimestamp] around a rendering [t]. *)
Definition quoted (self : Fields) (t : string) (separator : JsValue) : string :=
  (ToString host (openQuote self)
   ++ t
   ++ ToString host (closeQuote self)
   ++ ToString host separator)%string.

(** The template literal as a whole: the formatter is called while the
    literal is evaluated, and what it throws ends the evaluation. *)
Definition timestamp_of (self : Fields) (instant : Z) (separator : JsValue)
  : Completion string :=
  match toLocaleTimeString host instant (locales self) (options self) with
  | Normal t => Normal (quoted self t separator)
  | Throw e => Throw e
  end.

(** [_printTimestamp(logLevel, separator = this.#separator)].  At run time
    the tag is a string; the default of the second parameter applies when
    it is [undefined].  The timestamp is computed before the [switch], so an
    exception of the formatter leaves the method before anything is written
    and before the tag is looked at. *)
Definition _printTimestamp (logLevel : string) (separator_arg : JsValue)
  : M unit :=
  fun m =>
    let separator :=
      if is_undefined separator_arg then separator (this m)
      else separator_arg in
    match timestamp_of (this m) (now (world m)) separator with
    | Throw e => (Throw e, m)
    | Normal timestamp =>
        (if (logLevel =? log_ LOG_LEVEL)%string
            || (logLevel =? info_ LOG_LEVEL)%string
            || (logLevel =? warn_ LOG_LEVEL)%string then
           process_stdout_write timestamp
         else if (logLevel =? error_ LOG_LEVEL)%string then
           process_stderr_write timestamp
         else
           throw Error undefined_logLevel_message)
          m
    end.

Definition _printlnTimestamp (logLevel : string) : M unit :=
  _printTimestamp logLevel (JsString newline).

(** The fragment a wrapper writes with the configured separator around the
    rendering [t], and the one [table] writes. *)
Definition fragment (m : Machine) (t : string) : string :=
  quoted (this m) t (separator (this m)).

Definition line_fragment (m : Machine) (t : string) : string :=
  quoted (this m) t (JsString newline).

(** The nineteen public methods.  An omitted optional parameter is
    [undefined]; a rest parameter is the list of the remaining arguments. *)

Definition assert (condition : JsValue) (data : list JsValue) : M unit :=
  when (negb (ToBoolean condition))
    (_printTimestamp (error_ LOG_LEVEL) JsUndefined) ;;
  console console_assert (condition :: data).

Definition clear : M unit :=
  console console_clear [].

Definition debug (data : list JsValue) : M unit :=
  _printTimestamp (log_ LOG_LEVEL) JsUndefined ;;
  console console_debug data.

Definition error (data : list JsValue) : M unit :=
  _printTimestamp (error_ LOG_LEVEL) JsUndefined ;;
  console console_error data.

Definition info (data : list JsValue) : M unit :=
  _printTimestamp (info_ LOG_LEVEL) JsUndefined ;;
  console console_info data.

Definition log (data : list JsValue) : M unit :=
  _printTimestamp (log_ LOG_LEVEL) JsUndefined ;;
  console console_log data.

Definition table (tabularData properties : JsValue) : M unit :=
  _printlnTimestamp (log_ LOG_LEVEL) ;;
  console console_table [tabularData; properties].

Definition trace (data : list JsValue) : M unit :=
  _printTimestamp (log_ LOG_LEVEL) JsUndefined ;;
  console console_trace data.

Definition warn (data : list JsValue) : M unit :=
  _printTimestamp (warn_ LOG_LEVEL) JsUndefined ;;
  console console_warn data.

Definition dir (item options : JsValue) : M unit :=
  _printTimestamp (log_ LOG_LEVEL) JsUndefined ;;
  console console_dir [item; options].

Definition dirxml (data : list JsValue) : M unit :=
  _printTimestamp (log_ LOG_LEVEL) JsUndefined ;;
  console console_dirxml data.

Definition count (label : JsValue) : M unit :=
  _printTimestamp (info_ LOG_LEVEL) JsUndefined ;;
  console console_count [label].

Definition countReset (label : JsValue) : M unit :=
  console console_countReset [label].

Definition group (label : list JsValue) : M unit :=
  when (Z.of_nat (length label) >? 0)
    (_printTimestamp (log_ LOG_LEVEL) JsUndefined) ;;
  console console_group label.

Definition groupCollapsed (label : list JsValue) : M unit :=
  when (Z.of_nat (length label) >? 0)
    (_printTimestamp (log_ LOG_LEVEL) JsUndefined) ;;
  console console_groupCollapsed label.

Definition groupEnd : M unit :=
  console console_groupEnd [].

Definition time (label : JsValue) : M unit :=
  console console_time [label].

Definition timeLog (label : JsValue) (data : list JsValue) : M unit :=
  _printTimestamp (log_ LOG_LEVEL) JsUndefined ;;
  console console_timeLog (label :: data).

Definition timeEnd (label : JsValue) : M unit :=
  _printTimestamp (info_ LOG_LEVEL) JsUndefined ;;
  console console_timeEnd [label].

(** A call through the public surface: a method and its arguments. *)
Inductive PublicCall : Type :=
| call_assert (condition : JsValue) (data : list JsValue)
| call_clear
| call_debug (data : list JsValue)
| call_error (data : list JsValue)
| call_info (data : list JsValue)
| call_log (data : list JsValue)
| call_table (tabularData properties : JsValue)
| call_trace (data : list JsValue)
| call_warn (data : list JsValue)
| call_dir (item options : JsValue)
| call_dirxml (data : list JsValue)
| call_count (label : JsValue)
| call_countReset (label : JsValue)
| call_group (label : list JsValue)
| call_groupCollapsed (label : list JsValue)
| call_groupEnd
| call_time (label : JsValue)
| call_timeLog (label : JsValue) (data : list JsValue)
| call_timeEnd (label : JsValue).

Definition invoke (c : PublicCall) : M unit :=
  match c with
  | call_assert condition data => assert condition data
  | call_clear => clear
  | call_debug data => debug data
  | call_error data => error data
  | call_info data => info data
  | call_log data => log data
  | call_table tabularData properties => table tabularData properties
  | call_trace data => trace data
  | call_warn data => warn data
  | call_dir item options => dir item options
  | call_dirxml data => dirxml data
  | call_count label => count label
  | call_countReset label => countReset label
  | call_group label => group label
  | call_groupCollapsed label => groupCollapsed label
  | call_groupEnd => groupEnd
  | call_time label => time label
  | call_timeLog label data => timeLog label data
  | call_timeEnd label => timeEnd label
  end.

End Wrappers.

(** ** A stand-in host for the closed examples *)

Definition decimal (n : Z) : string :=
  NilZero.string_of_uint (N.to_uint (Z.to_N n)).

Definition two_digits (n : Z) : string :=
  ((if (n <? 10)%Z then "0" else "") ++ decimal n)%string.

(** A letter, a digit or a hyphen. *)
Definition tag_character (c : Ascii.ascii) : bool :=
  let n := Z.of_nat (Ascii.nat_of_ascii c) in
  ((48 <=? n) && (n <=? 57)) || ((65 <=? n) && (n <=? 90))
  || ((97 <=? n) && (n <=? 122)) || (n =? 45).

Fixpoint all_characters (p : Ascii.ascii -> bool) (s : string) : bool :=
  match s with
  | EmptyString => true
  | String c rest => p c && all_characters p rest
  end.

(** The stand-in takes a locale for a language tag when it is not empty and
    made of letters, digits and hyphens. *)
Definition well_formed_tag (s : string) : bool :=
  negb (s =? "")%string && all_characters tag_character s.

(** Renders the time of day of an instant given in milliseconds, the way the
    constructor's documentation shows it: ['en-US' => '12:00:00 AM'],
    ['ja-JP' => '0:00:00'].  A locale that is not a language tag makes it
    throw the [RangeError] of the real formatter.  The options are
    ignored. *)
Definition sample_toLocaleTimeString (instant : Z) (locales options : JsValue)
  : Completion string :=
  let seconds := (instant / 1000) mod 86400 in
  let h := seconds / 3600 in
  let tail := (":" ++ two_digits ((seconds / 60) mod 60)
               ++ ":" ++ two_digits (seconds mod 60))%string in
  match locales with
  | JsString tag =>
      if negb (well_formed_tag tag) then
        Throw (mkException RangeError "Incorrect locale information provided")
      else if (tag =? "en-US")%string then
        Normal (decimal (if (h mod 12 =? 0)%Z then 12%Z else (h mod 12)%Z)
                ++ tail ++ (if (h <? 12)%Z then " AM" else " PM"))%string
      else Normal (decimal h ++ tail)%string
  | _ => Normal (decimal h ++ tail)%string
  end.

Definition sample_host : Host :=
  mkHost sample_toLocaleTimeString (fun _ => "[object Object]").

(** The machine of a freshly constructed default instance at instant 0. *)
Definition sample_machine : Machine :=
  mkMachine initial_fields (mkWorld 0 []).

(** The instance of the specification's scenario: locale [en-US], an opening
    and a closing square bracket as quotes, separator [ - ]. *)
Definition sample_quote : JsValue :=
  JsArray [Some (JsString "["); Some (JsString "]")].

Definition sample_instance : Fields :=
  mkFields (JsString "en-US") JsUndefined (JsString "[") (JsString "]")
           (JsString " - ").

(** An instance whose locale is a string, so the constructor takes it, but
    not a language tag. *)
Definition malformed_locale : JsValue := JsString "not a locale".

Definition malformed_instance : Fields :=
  mkFields malformed_locale JsUndefined (JsString "") (JsString "")
           (JsString " ").

(** A quote of length 2 whose second position is a hole, as the array
    literal with a trailing elision writes it. *)
Definition sparse_quote : JsValue := JsArray [Some (JsString "["); None].

(** ** The console call behind each public call, and runs of calls *)

(** The one console call a public method ends with: the method of the same
    name, applied to the arguments the wrapper hands over. *)
Definition delegated (c : PublicCall) : Event :=
  match c with
  | call_assert condition data => ConsoleCall console_assert (condition :: data)
  | call_clear => ConsoleCall console_clear []
  | call_debug data => ConsoleCall console_debug data
  | call_error data => ConsoleCall console_error data
  | call_info data => ConsoleCall console_info data
  | call_log data => ConsoleCall console_log data
  | call_table tabularData properties =>
      ConsoleCall console_table [tabularData; properties]
  | call_trace data => ConsoleCall console_trace data
  | call_warn data => ConsoleCall console_warn data
  | call_dir item options => ConsoleCall console_dir [item; options]
  | call_dirxml data => ConsoleCall console_dirxml data
  | call_count label => ConsoleCall console_count [label]
  | call_countReset label => ConsoleCall console_countReset [label]
  | call_group label => ConsoleCall console_group label
  | call_groupCollapsed label => ConsoleCall console_groupCollapsed label
  | call_groupEnd => ConsoleCall console_groupEnd []
  | call_time label => ConsoleCall console_time [label]
  | call_timeLog label data => ConsoleCall console_timeLog (label :: data)
  | call_timeEnd label => ConsoleCall console_timeEnd [label]
  end.

(** Whether the call reaches [_printTimestamp]. *)
Definition asks_timestamp (c : PublicCall) : bool :=
  match c with
  | call_assert condition _ => negb (ToBoolean condition)
  | call_group label | call_groupCollapsed label =>
      Z.of_nat (length label) >? 0
  | call_clear | call_countReset _ | call_groupEnd | call_time _ => false
  | call_debug _ | call_error _ | call_info _ | call_log _ | call_table _ _
  | call_trace _ | call_warn _ | call_dir _ _ | call_dirxml _ | call_count _
  | call_timeLog _ _ | call_timeEnd _ => true
  end.

(** The write, if any, that precedes the console call when the formatter
    has returned [t]. *)
Definition stamp (host : Host) (m : Machine) (t : string) (c : PublicCall)
  : list Event :=
  match c with
  | call_assert condition _ =>
      if ToBoolean condition then [] else [StderrWrite (fragment host m t)]
  | call_error _ => [StderrWrite (fragment host m t)]
  | call_table _ _ => [StdoutWrite (line_fragment host m t)]
  | call_group label | call_groupCollapsed label =>
      match label with
      | [] => []
      | _ :: _ => [StdoutWrite (fragment host m t)]
      end
  | call_clear | call_countReset _ | call_groupEnd | call_time _ => []
  | call_debug _ | call_info _ | call_log _ | call_trace _ | call_warn _
  | call_dir _ _ | call_dirxml _ | call_count _ | call_timeLog _ _
  | call_timeEnd _ => [StdoutWrite (fragment host m t)]
  end.

(** The calls that never write a timestamp. *)
Definition never_stamps (c : PublicCall) : Prop :=
  c = call_clear
  \/ (exists label, c = call_countReset label)
  \/ c = call_groupEnd
  \/ (exists label, c = call_time label)
  \/ c = call_group []
  \/ c = call_groupCollapsed []
  \/ (exists condition data,
         c = call_assert condition data /\ ToBoolean condition = true).



Definition is_console_call (e : Event) : bool :=
  match e with ConsoleCall _ _ => true | _ => false end.

(** ** The constructor of the published build *)

(** [dist/ConsoleLocaleTimestamp.js], the file the package's [main] names,
    runs the same tests and assignments but throws a plain [Error] at each
    of the five places. *)
Definition dist_locales_block (locales : JsValue) : M unit :=
  when (negb (is_undefined locales))
    (when (negb (is_class "[object String]" locales))
       (throw Error "The argument `locales` must be an String.") ;;
     set_locales locales).

Definition dist_options_block (options : JsValue) : M unit :=
  when (negb (is_undefined options))
    (when (negb (is_class "[object Object]" options))
       (throw Error "The argument `options` must be an Object.") ;;
     set_options options).

Definition dist_quote_block (quote : JsValue) : M unit :=
  when (negb (is_undefined quote))
    ((if negb (is_class "[object Array]" quote) then
        throw Error "The argument `quote` must be an Array."
      else if (length_ quote <? 1) || (length_ quote >? 2) then
        throw Error "The argument `quote` must be an Array of length 1 or 2."
      else if negb (every (is_class "[object String]") quote) then
        throw Error "The contents of the Array of arguments `quote` must be a String."
      else ret tt) ;;
     set_openQuote (index quote 0) ;;
     set_closeQuote (if length_ quote =? 1 then index quote 0 else index quote 1)).

Definition dist_separator_block (separator : JsValue) : M unit :=
  when (negb (is_undefined separator))
    (when (negb (is_class "[object String]" separator))
       (throw Error "The argument `separator` must be an String.") ;;
     set_separator separator).

Definition dist_constructor_
    (locales options quote separator : JsValue) : M unit :=
  dist_locales_block locales ;;
  dist_options_block options ;;
  dist_quote_block quote ;;
  dist_separator_block separator.

(** An outcome with the class of its exception forgotten. *)
Definition as_plain_Error {A : Type} (r : Completion A * Machine)
  : Completion A * Machine :=
  match r with
  | (Normal a, m) => (Normal a, m)
  | (Throw e, m) => (Throw (mkException Error (message e)), m)
  end.

(** The slot of an array literal that reads back as [v]. *)
Definition slot_of (v : JsValue) : option JsValue :=
  if is_undefined v then None else Some v.

(** * Properties *)

(** ** Running a wrapper *)

Lemma events_app_two (evs : list Event) (a b : Event) :
  ((evs ++ [a]) ++ [b] = evs ++ [a; b])%list.
Proof. now rewrite <- app_assoc. Qed.

Lemma extended_nil (m : Machine) : extended m [] = m.
Proof.
  destruct m as [f [t evs]]. unfold extended. cbn. now rewrite app_nil_r.
Qed.

Section WrapperFacts.

Variable host : Host.

Lemma printTimestamp_stdout (lvl : string) (sep : JsValue) (m : Machine)
      (t : string) :
  rendering host m = Normal t ->
  In lvl ["log"; "info"; "warn"]%string ->
  _printTimestamp host lvl sep m =
    (Normal tt,
     extended m [StdoutWrite
       (quoted host (this m) t
          (if is_undefined sep then separator (this m) else sep))]).
Proof.
  intros Ht H. unfold _printTimestamp, timestamp_of.
  unfold rendering in Ht. rewrite Ht. simpl in H.
  destruct H as [<- | [<- | [<- | []]]]; reflexivity.
Qed.

Lemma printTimestamp_stderr (sep : JsValue) (m : Machine) (t : string) :
  rendering host m = Normal t ->
  _printTimestamp host "error" sep m =
    (Normal tt,
     extended m [StderrWrite
       (quoted host (this m) t
          (if is_undefined sep then separator (this m) else sep))]).
Proof.
  intros Ht. unfold _printTimestamp, timestamp_of.
  unfold rendering in Ht. now rewrite Ht.
Qed.

Lemma printTimestamp_throws (lvl : string) (sep : JsValue) (m : Machine)
      (e : Exception) :
  rendering host m = Throw e ->
  _printTimestamp host lvl sep m = (Throw e, m).
Proof.
  intros Ht. unfold _printTimestamp, timestamp_of.
  unfold rendering in Ht. now rewrite Ht.
Qed.

Lemma printTimestamp_undefined_level (lvl : string) (sep : JsValue)
      (m : Machine) (t : string) :
  rendering host m = Normal t ->
  ~ In lvl ["log"; "info"; "warn"; "error"]%string ->
  _printTimestamp host lvl sep m =
    (Throw (mkException Error undefined_logLevel_message), m).
Proof.
  intros Ht H. unfold _printTimestamp, timestamp_of.
  unfold rendering in Ht. rewrite Ht.
  cbn [LOG_LEVEL log_ info_ warn_ error_].
  destruct (String.eqb_spec lvl "log") as [-> | _];
    [exfalso; apply H; simpl; tauto |].
  destruct (String.eqb_spec lvl "info") as [-> | _];
    [exfalso; apply H; simpl; tauto |].
  destruct (String.eqb_spec lvl "warn") as [-> | _];
    [exfalso; apply H; simpl; tauto |].
  destruct (String.eqb_spec lvl "error") as [-> | _];
    [exfalso; apply H; simpl; tauto |].
  reflexivity.
Qed.

Lemma console_run (k : ConsoleMethod) (args : list JsValue) (m : Machine) :
  console k args m = (Normal tt, extended m [ConsoleCall k args]).
Proof. reflexivity. Qed.

(** A wrapper that stamps with a valid tag and then delegates. *)
Lemma stamped_stdout (lvl : string) (k : ConsoleMethod)
      (args : list JsValue) (m : Machine) (t : string) :
  rendering host m = Normal t ->
  In lvl ["log"; "info"; "warn"]%string ->
  (_printTimestamp host lvl JsUndefined ;; console k args) m =
    (Normal tt, extended m [StdoutWrite (fragment host m t); ConsoleCall k args]).
Proof.
  intros Ht H. unfold bind. rewrite (printTimestamp_stdout _ _ _ _ Ht H).
  rewrite console_run. unfold extended, fragment. cbn.
  now rewrite events_app_two.
Qed.

Lemma stamped_stderr (k : ConsoleMethod) (args : list JsValue) (m : Machine)
      (t : string) :
  rendering host m = Normal t ->
  (_printTimestamp host "error" JsUndefined ;; console k args) m =
    (Normal tt, extended m [StderrWrite (fragment host m t); ConsoleCall k args]).
Proof.
  intros Ht. unfold bind. rewrite (printTimestamp_stderr _ _ _ Ht).
  rewrite console_run. unfold extended, fragment. cbn.
  now rewrite events_app_two.
Qed.

Lemma stamped_throws (lvl : string) (sep : JsValue) (k : ConsoleMethod)
      (args : list JsValue) (m : Machine) (e : Exception) :
  rendering host m = Throw e ->
  (_printTimestamp host lvl sep ;; console k args) m = (Throw e, m).
Proof.
  intros Ht. unfold bind. now rewrite (printTimestamp_throws _ _ _ _ Ht).
Qed.

Lemma length_positive {A : Type} (x : A) (l : list A) :
  (Z.of_nat (length (x :: l)) >? 0) = true.
Proof. rewrite Z.gtb_ltb. apply Z.ltb_lt. simpl length. lia. Qed.

Lemma table_run (tabularData properties : JsValue) (m : Machine) (t : string) :
  rendering host m = Normal t ->
  table host tabularData properties m =
    (Normal tt,
     extended m [StdoutWrite (line_fragment host m t);
                 ConsoleCall console_table [tabularData; properties]]).
Proof.
  intros Ht. unfold table, _printlnTimestamp, bind.
  rewrite (printTimestamp_stdout "log" _ _ _ Ht); [| simpl; auto].
  rewrite console_run. unfold extended, line_fragment. cbn.
  now rewrite events_app_two.
Qed.

Lemma assert_run (condition : JsValue) (data : list JsValue) (m : Machine)
      (t : string) :
  rendering host m = Normal t ->
  assert host condition data m =
    (Normal tt,
     extended m
       ((if ToBoolean condition then [] else [StderrWrite (fragment host m t)])
        ++ [ConsoleCall console_assert (condition :: data)])%list).
Proof.
  intros Ht. unfold assert. destruct (ToBoolean condition); cbn [negb when].
  - reflexivity.
  - now apply stamped_stderr.
Qed.

(** What a public call does when the formatter returns [t]. *)
Lemma invoke_returns (c : PublicCall) (m : Machine) (t : string) :
  rendering host m = Normal t ->
  invoke host c m
  = (Normal tt, extended m (stamp host m t c ++ [delegated c])%list).
Proof.
  intros Ht.
  destruct c; cbn [invoke stamp delegated app];
    try (apply stamped_stdout; [exact Ht | simpl; tauto]);
    try (now apply stamped_stderr);
    try apply console_run.
  - now apply assert_run.
  - now apply table_run.
  - unfold group. destruct label as [| x label']; [reflexivity |].
    rewrite length_positive. cbn [when app].
    apply stamped_stdout; [exact Ht | simpl; tauto].
  - unfold groupCollapsed. destruct label as [| x label']; [reflexivity |].
    rewrite length_positive. cbn [when app].
    apply stamped_stdout; [exact Ht | simpl; tauto].
Qed.

(** A call that does not reach [_printTimestamp] only calls the console,
    whatever the formatter would do. *)
Lemma invoke_unstamped (c : PublicCall) (m : Machine) :
  asks_timestamp c = false ->
  invoke host c m = (Normal tt, extended m [delegated c]).
Proof.
  destruct c; cbn [asks_timestamp invoke]; try discriminate; intros H;
    try reflexivity.
  - unfold assert. rewrite H. reflexivity.
  - unfold group. rewrite H. reflexivity.
  - unfold groupCollapsed. rewrite H. reflexivity.
Qed.

(** A call that reaches [_printTimestamp] when the formatter throws. *)
Lemma invoke_throws (c : PublicCall) (m : Machine) (e : Exception) :
  rendering host m = Throw e ->
  asks_timestamp c = true ->
  invoke host c m = (Throw e, m).
Proof.
  intros Ht.
  destruct c; cbn [asks_timestamp invoke]; try discriminate; intros H;
    try (now apply stamped_throws).
  - unfold assert. rewrite H. cbn [when]. now apply stamped_throws.
  - unfold group. rewrite H. cbn [when]. now apply stamped_throws.
  - unfold groupCollapsed. rewrite H. cbn [when]. now apply stamped_throws.
Qed.

Lemma stamp_unstamped (c : PublicCall) (m : Machine) (t : string) :
  asks_timestamp c = false -> stamp host m t c = [].
Proof.
  destruct c; cbn; try discriminate; try reflexivity.
  - intros H. apply negb_false_iff in H. now rewrite H.
  - destruct label; [reflexivity |]. now rewrite length_positive.
  - destruct label; [reflexivity |]. now rewrite length_positive.
Qed.

Lemma stamp_has_no_console_call (m : Machine) (t : string) (c : PublicCall) :
  filter is_console_call (stamp host m t c) = [].
Proof.
  destruct c; cbn; try reflexivity.
  - now destruct (ToBoolean condition).
  - now destruct label.
  - now destruct label.
Qed.

Lemma stamp_length (m : Machine) (t : string) (c : PublicCall) :
  (length (stamp host m t c) <= 1)%nat.
Proof.
  destruct c; cbn; try lia.
  - destruct (ToBoolean condition); cbn; lia.
  - destruct label; cbn; lia.
  - destruct label; cbn; lia.
Qed.

(** The three ways a public call can end. *)
Lemma invoke_cases (c : PublicCall) (m : Machine) :
  (exists t, rendering host m = Normal t
             /\ invoke host c m
                = (Normal tt,
                   extended m (stamp host m t c ++ [delegated c])%list))
  \/ (asks_timestamp c = false
      /\ invoke host c m = (Normal tt, extended m [delegated c]))
  \/ (exists e, rendering host m = Throw e /\ asks_timestamp c = true
                /\ invoke host c m = (Throw e, m)).
Proof.
  destruct (rendering host m) as [t | e] eqn:Ht.
  - left. exists t. split; [reflexivity | now apply invoke_returns].
  - destruct (asks_timestamp c) eqn:Hc.
    + right; right. exists e. repeat split. now apply invoke_throws.
    + right; left. split; [reflexivity | now apply invoke_unstamped].
Qed.

End WrapperFacts.

(** ** Running the constructor *)

Lemma bind_normal {A B : Type} (c : M A) (k : A -> M B)
      (m m' : Machine) (a : A) :
  c m = (Normal a, m') -> bind c k m = k a m'.
Proof. intros H. unfold bind. now rewrite H. Qed.

Lemma bind_throw {A B : Type} (c : M A) (k : A -> M B)
      (m m' : Machine) (e : Exception) :
  c m = (Throw e, m') -> bind c k m = (Throw e, m').
Proof. intros H. unfold bind. now rewrite H. Qed.

Lemma locales_block_ok (v : JsValue) (m : Machine) :
  string_or_omitted v = true ->
  locales_block v m =
    (Normal tt,
     if is_undefined v then m
     else mkMachine (with_locales v (this m)) (world m)).
Proof.
  unfold string_or_omitted, locales_block.
  destruct (is_undefined v); cbn [orb negb when]; [reflexivity |].
  intros ->. reflexivity.
Qed.

Lemma locales_block_bad (v : JsValue) (m : Machine) :
  string_or_omitted v = false ->
  exists e, locales_block v m = (Throw e, m) /\ InvalidArgument e.
Proof.
  unfold string_or_omitted, locales_block.
  destruct (is_undefined v); cbn [orb negb when]; [discriminate |].
  intros ->. eexists; split; [reflexivity | left; reflexivity].
Qed.

Lemma options_block_ok (v : JsValue) (m : Machine) :
  object_or_omitted v = true ->
  options_block v m =
    (Normal tt,
     if is_undefined v then m
     else mkMachine (with_options v (this m)) (world m)).
Proof.
  unfold object_or_omitted, options_block.
  destruct (is_undefined v); cbn [orb negb when]; [reflexivity |].
  intros ->. reflexivity.
Qed.

Lemma options_block_bad (v : JsValue) (m : Machine) :
  object_or_omitted v = false ->
  exists e, options_block v m = (Throw e, m) /\ InvalidArgument e.
Proof.
  unfold object_or_omitted, options_block.
  destruct (is_undefined v); cbn [orb negb when]; [discriminate |].
  intros ->. eexists; split; [reflexivity | left; reflexivity].
Qed.

Lemma quote_block_ok (q : JsValue) (m : Machine) :
  quote_accepted q = true ->
  quote_block q m =
    (Normal tt,
     if is_undefined q then m
     else mkMachine
            (with_closeQuote (if length_ q =? 1 then index q 0 else index q 1)
               (with_openQuote (index q 0) (this m)))
            (world m)).
Proof.
  unfold quote_accepted, quote_block.
  destruct (is_undefined q); cbn [orb negb when]; [reflexivity |].
  destruct (is_class "[object Array]" q); cbn [andb negb]; [| discriminate].
  destruct ((length_ q <? 1) || (length_ q >? 2)); cbn [andb negb];
    [discriminate |].
  intros ->. reflexivity.
Qed.

Lemma quote_block_bad (q : JsValue) (m : Machine) :
  quote_accepted q = false ->
  exists e, quote_block q m = (Throw e, m) /\ InvalidArgument e.
Proof.
  unfold quote_accepted, quote_block.
  destruct (is_undefined q); cbn [orb negb when]; [discriminate |].
  destruct (is_class "[object Array]" q); cbn [andb negb].
  - destruct ((length_ q <? 1) || (length_ q >? 2)); cbn [andb negb].
    + intros _. eexists; split; [reflexivity | right; reflexivity].
    + intros ->. eexists; split; [reflexivity | left; reflexivity].
  - intros _. eexists; split; [reflexivity | left; reflexivity].
Qed.

Lemma separator_block_ok (v : JsValue) (m : Machine) :
  string_or_omitted v = true ->
  separator_block v m =
    (Normal tt,
     if is_undefined v then m
     else mkMachine (with_separator v (this m)) (world m)).
Proof.
  unfold string_or_omitted, separator_block.
  destruct (is_undefined v); cbn [orb negb when]; [reflexivity |].
  intros ->. reflexivity.
Qed.

Lemma separator_block_bad (v : JsValue) (m : Machine) :
  string_or_omitted v = false ->
  exists e, separator_block v m = (Throw e, m) /\ InvalidArgument e.
Proof.
  unfold string_or_omitted, separator_block.
  destruct (is_undefined v); cbn [orb negb when]; [discriminate |].
  intros ->. eexists; split; [reflexivity | left; reflexivity].
Qed.

(** The object as the constructor leaves it after its first blocks. *)
Lemma after_locales (l : JsValue) (w : World) :
  (if is_undefined l then mkMachine initial_fields w
   else mkMachine (with_locales l (this (mkMachine initial_fields w)))
                  (world (mkMachine initial_fields w)))
  = mkMachine (with_locales l initial_fields) w.
Proof. destruct l; reflexivity. Qed.

Lemma after_options (l o : JsValue) (w : World) :
  let m := mkMachine (with_locales l initial_fields) w in
  (if is_undefined o then m
   else mkMachine (with_options o (this m)) (world m))
  = mkMachine (with_options o (with_locales l initial_fields)) w.
Proof. destruct o; reflexivity. Qed.

Lemma after_quote (l o q : JsValue) (w : World) :
  let m := mkMachine (with_options o (with_locales l initial_fields)) w in
  (if is_undefined q then m
   else mkMachine
          (with_closeQuote (if length_ q =? 1 then index q 0 else index q 1)
             (with_openQuote (index q 0) (this m)))
          (world m))
  = mkMachine (mkFields l o (open_of q) (close_of q) (JsString " ")) w.
Proof. unfold open_of, close_of. destruct (is_undefined q); reflexivity. Qed.

Lemma after_separator (l o q s : JsValue) (w : World) :
  let m := mkMachine (mkFields l o (open_of q) (close_of q) (JsString " ")) w in
  (if is_undefined s then m
   else mkMachine (with_separator s (this m)) (world m))
  = mkMachine (mkFields l o (open_of q) (close_of q) (separator_of s)) w.
Proof. unfold separator_of. destruct (is_undefined s); reflexivity. Qed.

Lemma constructor_run (l o q s : JsValue) (w : World) :
  exists (r : Completion unit) (f : Fields),
    constructor_ l o q s (mkMachine initial_fields w) = (r, mkMachine f w)
    /\ stopped l o q s r f.
Proof.
  unfold constructor_.
  destruct (string_or_omitted l) eqn:Hl.
  2: { destruct (locales_block_bad l (mkMachine initial_fields w) Hl)
         as (e & He & Hk).
       exists (Throw e), initial_fields. split.
       - now apply bind_throw.
       - now constructor. }
  rewrite (bind_normal _ _ _ _ _ (locales_block_ok l _ Hl)), after_locales.
  destruct (object_or_omitted o) eqn:Ho.
  2: { destruct (options_block_bad o
                   (mkMachine (with_locales l initial_fields) w) Ho)
         as (e & He & Hk).
       exists (Throw e), (with_locales l initial_fields). split.
       - now apply bind_throw.
       - now constructor. }
  rewrite (bind_normal _ _ _ _ _ (options_block_ok o _ Ho)), after_options.
  destruct (quote_accepted q) eqn:Hq.
  2: { destruct (quote_block_bad q
                   (mkMachine (with_options o (with_locales l initial_fields)) w)
                   Hq) as (e & He & Hk).
       exists (Throw e), (with_options o (with_locales l initial_fields)).
       split.
       - now apply bind_throw.
       - now constructor. }
  rewrite (bind_normal _ _ _ _ _ (quote_block_ok q _ Hq)), after_quote.
  destruct (string_or_omitted s) eqn:Hs.
  - rewrite (separator_block_ok s _ Hs), after_separator.
    eexists _, _. split; [reflexivity | now constructor].
  - destruct (separator_block_bad s
                (mkMachine (mkFields l o (open_of q) (close_of q)
                                     (JsString " ")) w) Hs)
      as (e & He & Hk).
    eexists _, _. split; [exact He | now constructor].
Qed.

Lemma new_run (l o q s : JsValue) (w : World) :
  exists (r : Completion unit) (f : Fields),
    stopped l o q s r f
    /\ new_ConsoleLocaleTimestamp l o q s w =
         (match r with Normal _ => Normal f | Throw e => Throw e end, w).
Proof.
  destruct (constructor_run l o q s w) as (r & f & Hrun & Hstop).
  exists r, f. split; [exact Hstop |].
  unfold new_ConsoleLocaleTimestamp. rewrite Hrun.
  destruct r; reflexivity.
Qed.

(** ** The constructor's tests and the shapes of the specification *)

Lemma is_class_string (v : JsValue) :
  is_class "[object String]" v = true <-> is_string v.
Proof.
  unfold is_string. destruct v; cbn; split;
    try discriminate; try (intros [s' Hs]; discriminate); eauto.
Qed.

Lemma is_class_object (v : JsValue) :
  is_class "[object Object]" v = true <-> is_key_value_object v.
Proof.
  unfold is_key_value_object. destruct v; cbn; split;
    try discriminate; try (intros [s' Hs]; discriminate); eauto.
Qed.

Lemma is_class_array (v : JsValue) :
  is_class "[object Array]" v = true <-> is_sequence v.
Proof.
  unfold is_sequence. destruct v; cbn; split;
    try discriminate; try (intros [s' Hs]; discriminate); eauto.
Qed.

Lemma is_undefined_provided (v : JsValue) :
  is_undefined v = false <-> provided v.
Proof.
  unfold provided. destruct v; cbn; split; congruence.
Qed.

Lemma not_true_false (b : bool) (P : Prop) :
  (b = true <-> P) -> (b = false <-> ~ P).
Proof.
  intros [H1 H2]. destruct b; split; intros H; try discriminate.
  - exfalso. apply H. now apply H1.
  - intros HP. now specialize (H2 HP).
  - reflexivity.
Qed.

Lemma string_or_omitted_false (v : JsValue) :
  string_or_omitted v = false <-> provided v /\ ~ is_string v.
Proof.
  unfold string_or_omitted. rewrite orb_false_iff.
  now rewrite is_undefined_provided, (not_true_false _ _ (is_class_string v)).
Qed.

Lemma object_or_omitted_false (v : JsValue) :
  object_or_omitted v = false <-> provided v /\ ~ is_key_value_object v.
Proof.
  unfold object_or_omitted. rewrite orb_false_iff.
  now rewrite is_undefined_provided, (not_true_false _ _ (is_class_object v)).
Qed.

Lemma every_false (p : JsValue -> bool) (q : JsValue) :
  every p q = false <-> exists v, In (Some v) (elements q) /\ p v = false.
Proof.
  unfold every. induction (elements q) as [| slot slots IH]; cbn.
  - split; [discriminate | intros (v & [] & _)].
  - rewrite andb_false_iff, IH. split.
    + intros [H | (v & Hin & Hv)].
      * destruct slot as [x |]; [| discriminate]. exists x. auto.
      * exists v. auto.
    + intros (v & [-> | Hin] & Hv); [left; exact Hv | right; eauto].
Qed.

Lemma length_out_of_range (q : JsValue) :
  (length_ q <? 1) || (length_ q >? 2) = true
  <-> length_ q = 0 \/ length_ q >= 3.
Proof.
  rewrite orb_true_iff, Z.ltb_lt, Z.gtb_ltb, Z.ltb_lt.
  unfold length_. lia.
Qed.

Lemma quote_accepted_false (q : JsValue) :
  quote_accepted q = false
  <-> provided q
      /\ (~ is_sequence q \/ length_ q = 0 \/ length_ q >= 3
          \/ contains_non_string_element q).
Proof.
  unfold quote_accepted, contains_non_string_element.
  rewrite orb_false_iff, !andb_false_iff, negb_false_iff.
  rewrite is_undefined_provided, (not_true_false _ _ (is_class_array q)).
  rewrite length_out_of_range, every_false.
  split.
  - intros [Hp [[H | H] | (v & Hin & Hv)]]; (split; [exact Hp |]).
    + left. exact H.
    + right. destruct H as [H | H]; auto.
    + right; right; right. exists v. split; [exact Hin |].
      now apply (not_true_false _ _ (is_class_string v)).
  - intros [Hp [H | [H | [H | (v & Hin & Hv)]]]]; (split; [exact Hp |]).
    + left; left. exact H.
    + left; right. left. exact H.
    + left; right. right. exact H.
    + right. exists v. split; [exact Hin |].
      now apply (not_true_false _ _ (is_class_string v)).
Qed.

(** ** The claims about the severity router and the wrappers *)

(** C1.  Whatever the instance and the separator, [_printTimestamp] called
    with the tag [log], [info] or [warn] appends the fragment built around
    the host's rendering to the standard output, and with the tag [error] to
    the standard error; when the formatter throws there is no fragment,
    nothing is written and its exception leaves the method.  In every public
    call the console call, if it is reached, is the last event: a write never
    follows it. *)
Theorem timestamp_routed_before_delegation
        (host : Host) (m : Machine) (sep : JsValue) :
  let routed (write : string -> Event) : Completion unit * Machine :=
    match rendering host m with
    | Normal t =>
        (Normal tt,
         extended m
           [write (quoted host (this m) t
                     (if is_undefined sep then separator (this m) else sep))])
    | Throw e => (Throw e, m)
    end in
  _printTimestamp host "log" sep m = routed StdoutWrite
  /\ _printTimestamp host "info" sep m = routed StdoutWrite
  /\ _printTimestamp host "warn" sep m = routed StdoutWrite
  /\ _printTimestamp host "error" sep m = routed StderrWrite
  /\ forall c : PublicCall,
       exists new : list Event,
         snd (invoke host c m) = extended m new
         /\ (new = []
             \/ exists before : list Event,
                  new = (before ++ [delegated c])%list
                  /\ filter is_console_call before = []).
Proof.
  cbv zeta. repeat apply conj.
  1-4: destruct (rendering host m) as [t | e] eqn:Ht;
    [ first [ apply printTimestamp_stdout; [exact Ht | simpl; tauto]
            | now apply printTimestamp_stderr ]
    | now apply printTimestamp_throws ].
  intros c.
  destruct (invoke_cases host c m)
    as [(t & Ht & ->) | [(Hc & ->) | (e & Ht & Hc & ->)]]; cbn [snd].
  - eexists. split; [reflexivity |]. right. eexists. split; [reflexivity |].
    apply stamp_has_no_console_call.
  - eexists. split; [reflexivity |]. right. exists []. now split.
  - exists []. split; [now rewrite extended_nil | now left].
Qed.

(** C2.  For an instance built by the constructor, the stored locale and
    options are the constructor's arguments themselves, and whenever the
    host's formatter, given the current instant and those two arguments,
    returns a rendering, the fragment written is the open quote, that
    rendering, the close quote and a separator: [_printTimestamp] writes it
    with the separator it is given or, by default, the configured one; every
    public call that stamps writes it exactly once before its console call,
    [table] with a line feed and every other call with the configured
    separator; the other calls write no fragment. *)
Theorem fragment_is_quoted_locale_time
        (host : Host) (l o q s : JsValue) (w0 w0' : World) (self : Fields) :
  new_ConsoleLocaleTimestamp l o q s w0 = (Normal self, w0') ->
  locales self = l /\ options self = o
  /\ forall (w : World) (t : string),
       toLocaleTimeString host (now w) l o = Normal t ->
       (forall (lvl : string) (sep : JsValue),
           In lvl ["log"; "info"; "warn"; "error"]%string ->
           exists write : string -> Event,
             (write = StdoutWrite \/ write = StderrWrite)
             /\ _printTimestamp host lvl sep (mkMachine self w)
                = (Normal tt,
                   extended (mkMachine self w)
                     [write
                        (ToString host (openQuote self)
                         ++ t
                         ++ ToString host (closeQuote self)
                         ++ ToString host
                              (if is_undefined sep then separator self
                               else sep))%string]))
       /\ (forall c : PublicCall,
              asks_timestamp c = true ->
              exists write : string -> Event,
                (write = StdoutWrite \/ write = StderrWrite)
                /\ invoke host c (mkMachine self w)
                   = (Normal tt,
                      extended (mkMachine self w)
                        [write
                           (ToString host (openQuote self)
                            ++ t
                            ++ ToString host (closeQuote self)
                            ++ match c with
                               | call_table _ _ => newline
                               | _ => ToString host (separator self)
                               end)%string;
                         delegated c]))
       /\ (forall c : PublicCall,
              asks_timestamp c = false ->
              invoke host c (mkMachine self w)
              = (Normal tt, extended (mkMachine self w) [delegated c])).
Proof.
  intros Hnew.
  destruct (new_run l o q s w0) as (r & f & Hstop & Hrun).
  rewrite Hrun in Hnew.
  destruct Hstop; try discriminate.
  injection Hnew as <- _.
  split; [reflexivity | split; [reflexivity |]].
  intros w t Ht.
  set (self := mkFields l o (open_of q) (close_of q) (separator_of s)).
  assert (Hr : rendering host (mkMachine self w) = Normal t) by exact Ht.
  split; [| split].
  - intros lvl sep [<- | [<- | [<- | [<- | []]]]].
    + exists StdoutWrite. split; [now left |].
      apply printTimestamp_stdout; [exact Hr | simpl; tauto].
    + exists StdoutWrite. split; [now left |].
      apply printTimestamp_stdout; [exact Hr | simpl; tauto].
    + exists StdoutWrite. split; [now left |].
      apply printTimestamp_stdout; [exact Hr | simpl; tauto].
    + exists StderrWrite. split; [now right |].
      now apply printTimestamp_stderr.
  - intros c Hc. rewrite (invoke_returns host c _ t Hr).
    destruct c; cbn [asks_timestamp] in Hc; try discriminate;
      cbn [stamp app];
      try (exists StdoutWrite; split; [now left | reflexivity]);
      try (exists StderrWrite; split; [now right | reflexivity]).
    + apply negb_true_iff in Hc. rewrite Hc.
      exists StderrWrite. split; [now right | reflexivity].
    + destruct label; [discriminate |].
      exists StdoutWrite. split; [now left | reflexivity].
    + destruct label; [discriminate |].
      exists StdoutWrite. split; [now left | reflexivity].
  - intros c Hc. now apply invoke_unstamped.
Qed.

(** C5, the claim as written fails: on an instance whose locale the
    constructor takes and the formatter rejects, [assert] with a falsy
    condition throws the formatter's [RangeError]; nothing is written and
    [console.assert] is not called. *)
Lemma assert_on_malformed_locale_throws :
  new_ConsoleLocaleTimestamp malformed_locale JsUndefined JsUndefined
    JsUndefined (mkWorld 0 [])
  = (Normal malformed_instance, mkWorld 0 [])
  /\ ToBoolean (JsBoolean false) = false
  /\ assert sample_host (JsBoolean false) [JsString "Hello World!"]
            (mkMachine malformed_instance (mkWorld 0 []))
     = (Throw (mkException RangeError "Incorrect locale information provided"),
        mkMachine malformed_instance (mkWorld 0 [])).
Proof. repeat split. Qed.

(** C5, as amended.  [assert] with a falsy condition writes one fragment to
    the standard error and then hands the condition and the data to
    [console.assert], provided the formatter returns a rendering; when the
    formatter throws, its exception leaves [assert], nothing is written and
    the console is not called.  With a truthy condition [assert] only calls
    [console.assert]. *)
Theorem assert_stamps_only_failures
        (host : Host) (condition : JsValue) (data : list JsValue)
        (m : Machine) :
  (ToBoolean condition = false ->
   assert host condition data m =
     match rendering host m with
     | Normal t =>
         (Normal tt,
          extended m [StderrWrite (fragment host m t);
                      ConsoleCall console_assert (condition :: data)])
     | Throw e => (Throw e, m)
     end)
  /\ (ToBoolean condition = true ->
      assert host condition data m =
        (Normal tt,
         extended m [ConsoleCall console_assert (condition :: data)])).
Proof.
  split; intros H.
  - destruct (rendering host m) as [t | e] eqn:Ht.
    + rewrite (assert_run host _ _ _ t Ht), H. reflexivity.
    + apply (invoke_throws host (call_assert condition data) m e Ht).
      cbn. now rewrite H.
  - apply (invoke_unstamped host (call_assert condition data) m).
    cbn. now rewrite H.
Qed.

(** C6, the claim as written fails: on an instance whose locale the
    constructor takes and the formatter rejects, [table] throws the
    formatter's [RangeError] before anything is written or delegated. *)
Lemma table_on_malformed_locale_throws :
  new_ConsoleLocaleTimestamp malformed_locale JsUndefined JsUndefined
    JsUndefined (mkWorld 0 [])
  = (Normal malformed_instance, mkWorld 0 [])
  /\ table sample_host (JsObject []) JsUndefined
           (mkMachine malformed_instance (mkWorld 0 []))
     = (Throw (mkException RangeError "Incorrect locale information provided"),
        mkMachine malformed_instance (mkWorld 0 [])).
Proof. split; reflexivity. Qed.

(** C6, as amended.  Whatever separator the instance holds, [table] writes
    to the standard output the fragment that ends in a line feed and then
    calls [console.table], provided the formatter returns a rendering; when
    the formatter throws, its exception leaves [table], nothing is written
    and the console is not called. *)
Theorem table_fragment_ends_in_newline
        (host : Host) (self : Fields) (w : World)
        (tabularData properties : JsValue) :
  table host tabularData properties (mkMachine self w) =
    match toLocaleTimeString host (now w) (locales self) (options self) with
    | Normal t =>
        (Normal tt,
         extended (mkMachine self w)
           [StdoutWrite
              (ToString host (openQuote self)
               ++ t
               ++ ToString host (closeQuote self)
               ++ newline)%string;
            ConsoleCall console_table [tabularData; properties]])
    | Throw e => (Throw e, mkMachine self w)
    end.
Proof.
  destruct (toLocaleTimeString host (now w) (locales self) (options self))
    as [t | e] eqn:Ht.
  - now apply table_run.
  - now apply (invoke_throws host (call_table tabularData properties)
                 (mkMachine self w) e Ht).
Qed.

(** C7, as amended.  Only [group] and [groupCollapsed] skip the timestamp
    when they are called without arguments, and they still call the console.
    [debug], [error], [info], [log], [trace], [warn], [dirxml] and [timeLog]
    called with an empty payload, and [assert] called with a falsy condition
    and an empty payload, write the timestamp and then call the console when
    the formatter returns a rendering; when it throws, its exception leaves
    them before anything is written or delegated. *)
Theorem only_groups_skip_without_payload (host : Host) (m : Machine) :
  let stamped (write : string -> Event) (call : Event)
      : Completion unit * Machine :=
    match rendering host m with
    | Normal t => (Normal tt, extended m [write (fragment host m t); call])
    | Throw e => (Throw e, m)
    end in
  group host [] m
    = (Normal tt, extended m [ConsoleCall console_group []])
  /\ groupCollapsed host [] m
     = (Normal tt, extended m [ConsoleCall console_groupCollapsed []])
  /\ debug host [] m = stamped StdoutWrite (ConsoleCall console_debug [])
  /\ error host [] m = stamped StderrWrite (ConsoleCall console_error [])
  /\ info host [] m = stamped StdoutWrite (ConsoleCall console_info [])
  /\ log host [] m = stamped StdoutWrite (ConsoleCall console_log [])
  /\ trace host [] m = stamped StdoutWrite (ConsoleCall console_trace [])
  /\ warn host [] m = stamped StdoutWrite (ConsoleCall console_warn [])
  /\ dirxml host [] m = stamped StdoutWrite (ConsoleCall console_dirxml [])
  /\ (forall label : JsValue,
        timeLog host label [] m
        = stamped StdoutWrite (ConsoleCall console_timeLog [label]))
  /\ (forall condition : JsValue,
        ToBoolean condition = false ->
        assert host condition [] m
        = stamped StderrWrite (ConsoleCall console_assert [condition])).
Proof.
  cbv zeta.
  assert (Hstamped : forall c : PublicCall,
             asks_timestamp c = true ->
             forall (write : string -> Event),
               (forall t, stamp host m t c = [write (fragment host m t)]) ->
               invoke host c m
               = match rendering host m with
                 | Normal t =>
                     (Normal tt,
                      extended m [write (fragment host m t); delegated c])
                 | Throw e => (Throw e, m)
                 end).
  { intros c Hc write Hw.
    destruct (rendering host m) as [t | e] eqn:Ht.
    - rewrite (invoke_returns host c m t Ht), Hw. reflexivity.
    - now apply invoke_throws. }
  repeat apply conj; try reflexivity.
  - now apply (Hstamped (call_debug [])).
  - now apply (Hstamped (call_error [])).
  - now apply (Hstamped (call_info [])).
  - now apply (Hstamped (call_log [])).
  - now apply (Hstamped (call_trace [])).
  - now apply (Hstamped (call_warn [])).
  - now apply (Hstamped (call_dirxml [])).
  - intros label. now apply (Hstamped (call_timeLog label [])).
  - intros condition Hc.
    apply (Hstamped (call_assert condition [])).
    + cbn. now rewrite Hc.
    + intros t. cbn. now rewrite Hc.
Qed.

(** C7, the claim as written fails: [debug] called without arguments on a
    default instance writes the timestamp before it calls [console.debug]. *)
Lemma debug_without_payload_writes_timestamp :
  new_ConsoleLocaleTimestamp JsUndefined JsUndefined JsUndefined JsUndefined
    (mkWorld 0 []) = (Normal (this sample_machine), world sample_machine)
  /\ debug sample_host [] sample_machine =
       (Normal tt,
        extended sample_machine
          [StdoutWrite "0:00:00 "; ConsoleCall console_debug []]).
Proof. split; reflexivity. Qed.

(** C9.  The router does throw its [Error] on a tag outside [log], [info],
    [warn] and [error], but no public call reaches that branch: whatever the
    instance and the arguments, a public call either completes normally or
    throws exactly what the host's formatter threw.  On a host whose
    formatter throws nothing of class [Error], as the [RangeError]s and
    [TypeError]s of the real one, no public call throws an [Error]. *)
Theorem undefined_level_unreachable
        (host : Host) (c : PublicCall) (m : Machine) :
  (forall t : string,
      rendering host m = Normal t ->
      fst (_printTimestamp host "debug" JsUndefined m)
      = Throw (mkException Error undefined_logLevel_message))
  /\ (fst (invoke host c m) = Normal tt
      \/ exists e : Exception,
           rendering host m = Throw e /\ invoke host c m = (Throw e, m))
  /\ ((forall e : Exception, rendering host m = Throw e -> kind e <> Error) ->
      forall msg : string,
        fst (invoke host c m) <> Throw (mkException Error msg)).
Proof.
  split; [| split].
  - intros t Ht.
    rewrite (printTimestamp_undefined_level host "debug" _ _ t Ht);
      [reflexivity |].
    simpl. intros [H | [H | [H | [H | []]]]]; discriminate.
  - destruct (invoke_cases host c m)
      as [(t & Ht & ->) | [(Hc & ->) | (e & Ht & Hc & ->)]];
      [now left | now left | right; now exists e].
  - intros Hhost msg.
    destruct (invoke_cases host c m)
      as [(t & Ht & ->) | [(Hc & ->) | (e & Ht & Hc & ->)]];
      cbn [fst]; try discriminate.
    intros [= ->]. now apply (Hhost _ Ht).
Qed.

(** ** The claims about construction *)

Lemma contains_has_position (q : JsValue) :
  contains_non_string_element q -> has_non_string_position q.
Proof.
  intros (v & Hin & Hv). apply In_nth_error in Hin as [i Hi].
  exists i. split.
  - unfold length_. apply Nat2Z.inj_lt. apply nth_error_Some. congruence.
  - unfold index. now rewrite Hi.
Qed.

Lemma dense_has_position (q : JsValue) :
  (forall slot, In slot (elements q) -> slot <> None) ->
  has_non_string_position q -> contains_non_string_element q.
Proof.
  intros Hdense (i & Hi & Hv). unfold index in Hv.
  destruct (nth_error (elements q) i) as [[v |] |] eqn:Hn.
  - exists v. split; [eapply nth_error_In; exact Hn | exact Hv].
  - exfalso. apply (Hdense None); [eapply nth_error_In; exact Hn | reflexivity].
  - apply nth_error_None in Hn. unfold length_ in Hi. lia.
Qed.

(** C3, where the constructor falls short of it.  A quote of length 2 whose
    second position is a hole is not a sequence of one or two strings, yet
    [every] does not visit the hole: construction succeeds where the quote
    with an explicit [undefined] in that position is rejected, the close
    quote is [undefined], and the next timestamp carries the text
    [undefined]. *)
Theorem sparse_quote_escapes_validation :
  violates_shape JsUndefined JsUndefined sparse_quote JsUndefined
  /\ new_ConsoleLocaleTimestamp JsUndefined JsUndefined sparse_quote
       JsUndefined (mkWorld 0 [])
     = (Normal (mkFields JsUndefined JsUndefined (JsString "[") JsUndefined
                         (JsString " ")),
        mkWorld 0 [])
  /\ log sample_host [JsString "Hello"]
         (mkMachine (mkFields JsUndefined JsUndefined (JsString "[")
                              JsUndefined (JsString " "))
                    (mkWorld 0 []))
     = (Normal tt,
        mkMachine (mkFields JsUndefined JsUndefined (JsString "[")
                            JsUndefined (JsString " "))
                  (mkWorld 0 [StdoutWrite "[0:00:00undefined ";
                              ConsoleCall console_log [JsString "Hello"]])).
Proof.
  split; [| split; reflexivity].
  right; right; left. split; [discriminate |].
  right; right; right. exists 1%nat. split; [reflexivity |].
  intros [s H]. discriminate.
Qed.

(** C4.  With the other arguments accepted, a quote of one string makes that
    string both the open and the close quote, and a quote of two strings
    makes the first the open quote and the second the close quote. *)
Theorem quote_sets_open_and_close
        (l o s : JsValue) (w : World) (a b : string) :
  string_or_omitted l = true ->
  object_or_omitted o = true ->
  string_or_omitted s = true ->
  (exists self,
      new_ConsoleLocaleTimestamp l o (JsArray [Some (JsString a)]) s w
        = (Normal self, w)
      /\ openQuote self = JsString a /\ closeQuote self = JsString a)
  /\ (exists self,
         new_ConsoleLocaleTimestamp l o
           (JsArray [Some (JsString a); Some (JsString b)]) s w
           = (Normal self, w)
         /\ openQuote self = JsString a /\ closeQuote self = JsString b).
Proof.
  intros Hl Ho Hs. split.
  - destruct (new_run l o (JsArray [Some (JsString a)]) s w)
      as (r & f & Hstop & ->).
    inversion Hstop; subst; try congruence; try discriminate.
    eexists. repeat split.
  - destruct (new_run l o (JsArray [Some (JsString a); Some (JsString b)]) s w)
      as (r & f & Hstop & ->).
    inversion Hstop; subst; try congruence; try discriminate.
    eexists. repeat split.
Qed.

Lemma quote_sets_open_and_close_witness :
  (exists self,
      new_ConsoleLocaleTimestamp (JsString "en-US") JsUndefined
        (JsArray [Some (JsString "*")]) (JsString " - ") (mkWorld 0 [])
        = (Normal self, mkWorld 0 [])
      /\ openQuote self = JsString "*" /\ closeQuote self = JsString "*")
  /\ (exists self,
         new_ConsoleLocaleTimestamp (JsString "en-US") JsUndefined
           (JsArray [Some (JsString "*"); Some (JsString "]")])
           (JsString " - ") (mkWorld 0 [])
           = (Normal self, mkWorld 0 [])
         /\ openQuote self = JsString "*" /\ closeQuote self = JsString "]").
Proof.
  apply (quote_sets_open_and_close (JsString "en-US") JsUndefined
           (JsString " - ") (mkWorld 0 []) "*" "]"); reflexivity.
Defined.

(** C8, the claim as written fails: when the separator is rejected, the
    locale and the quotes given with it have already been assigned. *)
Lemma fields_assigned_before_separator_rejected :
  constructor_ (JsString "en-US") JsUndefined sample_quote (JsNumber 0)
    (mkMachine initial_fields (mkWorld 0 []))
  = (Throw (mkException TypeError
              "The argument `separator` must be an String."),
     mkMachine (mkFields (JsString "en-US") JsUndefined (JsString "[")
                         (JsString "]") (JsString " "))
               (mkWorld 0 []))
  /\ mkFields (JsString "en-US") JsUndefined (JsString "[") (JsString "]")
              (JsString " ")
     <> initial_fields.
Proof. split; [reflexivity | discriminate]. Qed.

(** C8, as amended.  When a validation fails the caller gets the exception
    and no instance, and nothing is written.  The object under construction
    is discarded as the failing block found it: the fields of the arguments
    validated before hold those arguments, the field of the rejected
    argument and the fields of the later ones hold their defaults. *)
Theorem failed_construction_yields_no_instance
        (l o q s : JsValue) (w : World) (e : Exception) (m' : Machine) :
  constructor_ l o q s (mkMachine initial_fields w) = (Throw e, m') ->
  new_ConsoleLocaleTimestamp l o q s w = (Throw e, w)
  /\ world m' = w
  /\ ((string_or_omitted l = false /\ this m' = initial_fields)
      \/ (object_or_omitted o = false
          /\ this m' = with_locales l initial_fields)
      \/ (quote_accepted q = false
          /\ this m' = with_options o (with_locales l initial_fields))
      \/ (string_or_omitted s = false
          /\ this m' = mkFields l o (open_of q) (close_of q) (JsString " "))).
Proof.
  intros H.
  destruct (constructor_run l o q s w) as (r & f & Hrun & Hstop).
  unfold new_ConsoleLocaleTimestamp. rewrite H.
  rewrite H in Hrun. injection Hrun as <- ->.
  split; [reflexivity | split; [reflexivity |]]. cbn [this].
  inversion Hstop; subst; auto 10.
Qed.

Lemma failed_construction_yields_no_instance_witness :
  new_ConsoleLocaleTimestamp (JsString "en-US") JsUndefined sample_quote
    (JsNumber 0) (mkWorld 0 [])
  = (Throw (mkException TypeError
              "The argument `separator` must be an String."),
     mkWorld 0 []).
Proof.
  apply (failed_construction_yields_no_instance
           (JsString "en-US") JsUndefined sample_quote (JsNumber 0)
           (mkWorld 0 [])
           (mkException TypeError "The argument `separator` must be an String.")
           (mkMachine (mkFields (JsString "en-US") JsUndefined (JsString "[")
                                (JsString "]") (JsString " "))
                      (mkWorld 0 []))).
  reflexivity.
Defined.

(** C10.  A quote of two elements whose second is an explicit [undefined],
    which the declared type [[string, string?]] admits, is rejected with the
    [TypeError] about the contents of the array, whereas the quote of the
    first element alone is accepted. *)
Theorem explicit_undefined_second_quote_rejected (a : string) (w : World) :
  new_ConsoleLocaleTimestamp JsUndefined JsUndefined
    (JsArray [Some (JsString a); Some JsUndefined]) JsUndefined w
  = (Throw (mkException TypeError
       "The contents of the Array of arguments `quote` must be a String."),
     w)
  /\ new_ConsoleLocaleTimestamp JsUndefined JsUndefined
       (JsArray [Some (JsString a)]) JsUndefined w
     = (Normal (mkFields JsUndefined JsUndefined (JsString a) (JsString a)
                        (JsString " ")),
        w).
Proof. split; reflexivity. Qed.

(** ** The claims at the scenario of the specification *)

(** Locale [en-US], square brackets as quotes, separator [ - ]: logging [Hello]
    at 12:34:56 writes the quoted time and the separator to the standard
    output and then hands [Hello] to [console.log]. *)
Example log_scenario :
  new_ConsoleLocaleTimestamp (JsString "en-US") JsUndefined sample_quote
    (JsString " - ") (mkWorld 0 []) = (Normal sample_instance, mkWorld 0 [])
  /\ log sample_host [JsString "Hello"]
         (mkMachine sample_instance (mkWorld 45296000 []))
     = (Normal tt,
        mkMachine sample_instance
          (mkWorld 45296000
             [StdoutWrite "[12:34:56 PM] - ";
              ConsoleCall console_log [JsString "Hello"]])).
Proof. split; reflexivity. Qed.

Lemma fragment_is_quoted_locale_time_witness :
  exists write : string -> Event,
    (write = StdoutWrite \/ write = StderrWrite)
    /\ invoke sample_host (call_log [JsString "Hello"])
               (mkMachine sample_instance (mkWorld 45296000 []))
       = (Normal tt,
          extended (mkMachine sample_instance (mkWorld 45296000 []))
            [write "[12:34:56 PM] - ";
             ConsoleCall console_log [JsString "Hello"]]).
Proof.
  exact (proj1 (proj2
           (proj2 (proj2
              (fragment_is_quoted_locale_time sample_host
                 (JsString "en-US") JsUndefined sample_quote (JsString " - ")
                 (mkWorld 0 []) (mkWorld 0 []) sample_instance eq_refl))
              (mkWorld 45296000 []) "12:34:56 PM" eq_refl))
           (call_log [JsString "Hello"]) eq_refl).
Defined.

Lemma assert_stamps_only_failures_witness :
  assert sample_host (JsBoolean false) [JsString "Hello World!"] sample_machine
  = (Normal tt,
     extended sample_machine
       [StderrWrite "0:00:00 ";
        ConsoleCall console_assert
          [JsBoolean false; JsString "Hello World!"]])
  /\ assert sample_host (JsBoolean true) [JsString "Hello World!"]
            sample_machine
     = (Normal tt,
        extended sample_machine
          [ConsoleCall console_assert
             [JsBoolean true; JsString "Hello World!"]]).
Proof.
  split.
  - exact (proj1 (assert_stamps_only_failures sample_host (JsBoolean false)
                    [JsString "Hello World!"] sample_machine) eq_refl).
  - exact (proj2 (assert_stamps_only_failures sample_host (JsBoolean true)
                    [JsString "Hello World!"] sample_machine) eq_refl).
Defined.

(** * Further properties of the wrappers *)

(** X1.  A public call never touches the instance or the clock and only
    appends to what the world has seen. *)
Theorem public_call_preserves_configuration
        (host : Host) (c : PublicCall) (m : Machine) :
  this (snd (invoke host c m)) = this m
  /\ now (world (snd (invoke host c m))) = now (world m)
  /\ exists new : list Event,
       events (world (snd (invoke host c m))) = (events (world m) ++ new)%list.
Proof.
  destruct (invoke_cases host c m)
    as [(t & Ht & ->) | [(Hc & ->) | (e & Ht & Hc & ->)]]; cbn.
  - repeat split. eexists. reflexivity.
  - repeat split. eexists. reflexivity.
  - repeat split. exists []. now rewrite app_nil_r.
Qed.

Lemma never_stamps_unstamped (c : PublicCall) :
  never_stamps c <-> asks_timestamp c = false.
Proof.
  unfold never_stamps. split.
  - intros [-> | [[label ->] | [-> | [[label ->] | [-> | [-> | H]]]]]];
      try reflexivity.
    destruct H as (condition & data & -> & Hc). cbn. now rewrite Hc.
  - destruct c; cbn; try discriminate; intros H; eauto 8.
    + apply negb_false_iff in H. repeat right. eauto.
    + destruct label; [tauto |]. now rewrite length_positive in H.
    + destruct label; [tauto |]. now rewrite length_positive in H.
Qed.

Lemma stamp_of_stamped (host : Host) (m : Machine) (t : string)
      (c : PublicCall) :
  asks_timestamp c = true ->
  stamp host m t c = [StdoutWrite (fragment host m t)]
  \/ stamp host m t c = [StderrWrite (fragment host m t)]
  \/ stamp host m t c = [StdoutWrite (line_fragment host m t)].
Proof.
  destruct c; cbn; try discriminate; intros H; auto.
  - apply negb_true_iff in H. rewrite H. auto.
  - destruct label; [discriminate | auto].
  - destruct label; [discriminate | auto].
Qed.

Lemma delegated_is_no_write (c : PublicCall) (chunk : string) :
  delegated c <> StdoutWrite chunk /\ delegated c <> StderrWrite chunk.
Proof. destruct c; split; discriminate. Qed.

(** X2.  [clear], [countReset], [groupEnd] and [time], a [group] or
    [groupCollapsed] without label, and an [assert] whose condition is
    truthy only call the console, whatever the formatter would do.  When the
    formatter returns a rendering, these are exactly the public calls that
    write no timestamp: every other call then writes one. *)
Theorem unstamped_calls (host : Host) (c : PublicCall) (m : Machine) :
  (never_stamps c ->
   invoke host c m = (Normal tt, extended m [delegated c]))
  /\ forall t : string,
       rendering host m = Normal t ->
       exists new : list Event,
         invoke host c m = (Normal tt, extended m new)
         /\ ((forall chunk : string,
                 ~ In (StdoutWrite chunk) new /\ ~ In (StderrWrite chunk) new)
             <-> never_stamps c).
Proof.
  split.
  - intros H. apply invoke_unstamped. now apply never_stamps_unstamped.
  - intros t Ht. exists (stamp host m t c ++ [delegated c])%list.
    split; [now apply invoke_returns |].
    rewrite never_stamps_unstamped.
    destruct (asks_timestamp c) eqn:Hc.
    + split; [| discriminate]. intros Hall. exfalso.
      destruct (stamp_of_stamped host m t c Hc) as [Hs | [Hs | Hs]];
        rewrite Hs in Hall.
      * apply (proj1 (Hall (fragment host m t))). now left.
      * apply (proj2 (Hall (fragment host m t))). now left.
      * apply (proj1 (Hall (line_fragment host m t))). now left.
    + split; [reflexivity |]. intros _ chunk.
      rewrite (stamp_unstamped host c m t Hc). cbn [app In].
      destruct (delegated_is_no_write c chunk). tauto.
Qed.

(** X3.  When the formatter returns a rendering, a public call writes to
    the standard error exactly when it is [error], or an [assert] whose
    condition is falsy; and a call that writes there writes nothing to the
    standard output. *)
Theorem stderr_only_for_error_and_failed_assert
        (host : Host) (c : PublicCall) (m : Machine) (t : string) :
  rendering host m = Normal t ->
  exists new : list Event,
    invoke host c m = (Normal tt, extended m new)
    /\ ((exists chunk : string, In (StderrWrite chunk) new)
        <-> ((exists data, c = call_error data)
             \/ (exists condition data,
                    c = call_assert condition data
                    /\ ToBoolean condition = false)))
    /\ ((exists chunk : string, In (StderrWrite chunk) new) ->
        forall chunk : string, ~ In (StdoutWrite chunk) new).
Proof.
  intros Ht.
  exists (stamp host m t c ++ [delegated c])%list.
  split; [now apply invoke_returns |].
  destruct c; cbn [stamp delegated];
    try destruct (ToBoolean condition) eqn:Hc;
    try destruct label as [| x label'];
    cbn [app In];
    (split; [split |]);
    try (intros (chunk & H);
         repeat (destruct H as [H | H]; try discriminate);
         try contradiction;
         eauto 6; fail);
    try (intros [(d & H) | (cnd & d & H & Hd)];
         try discriminate;
         try (injection H as <- <-; congruence);
         eexists; left; reflexivity);
    try (intros _ chunk H;
         repeat (destruct H as [H | H]; try discriminate);
         contradiction).
Qed.

Lemma stderr_only_for_error_and_failed_assert_witness :
  exists new : list Event,
    invoke sample_host (call_error [JsString "Hello"]) sample_machine
    = (Normal tt, extended sample_machine new)
    /\ ((exists chunk : string, In (StderrWrite chunk) new)
        <-> ((exists data, call_error [JsString "Hello"] = call_error data)
             \/ (exists condition data,
                    call_error [JsString "Hello"]
                    = call_assert condition data
                    /\ ToBoolean condition = false)))
    /\ ((exists chunk : string, In (StderrWrite chunk) new) ->
        forall chunk : string, ~ In (StdoutWrite chunk) new).
Proof.
  exact (stderr_only_for_error_and_failed_assert sample_host
           (call_error [JsString "Hello"]) sample_machine "0:00:00" eq_refl).
Defined.

(** X4.  A public call either calls the console exactly once, as its last
    action, on the method of its own name with the arguments the wrapper
    hands over, after at most one event that is not a console call; or, and
    only when it stamps and the formatter throws, it ends with the
    formatter's exception, having written nothing and called nothing. *)
Theorem public_call_delegates_once
        (host : Host) (c : PublicCall) (m : Machine) :
  (exists before : list Event,
      invoke host c m
      = (Normal tt, extended m (before ++ [delegated c])%list)
      /\ filter is_console_call before = []
      /\ (length before <= 1)%nat)
  \/ (exists e : Exception,
         rendering host m = Throw e
         /\ asks_timestamp c = true
         /\ invoke host c m = (Throw e, m)).
Proof.
  destruct (invoke_cases host c m)
    as [(t & Ht & Hrun) | [(Hc & Hrun) | (e & Ht & Hc & Hrun)]].
  - left. exists (stamp host m t c). split; [exact Hrun |].
    split; [apply stamp_has_no_console_call | apply stamp_length].
  - left. exists []. split; [exact Hrun |]. split; [reflexivity | cbn; lia].
  - right. now exists e.
Qed.




(** X6.  The timestamp is computed before the tag is looked at: when the
    formatter throws, [_printTimestamp] ends with that exception whatever
    the tag, and nothing is written.  When the formatter returns, the method
    completes exactly on the four tags of [#LOG_LEVEL]; on any other tag it
    throws its [Error] and leaves the machine as it was. *)
Theorem router_accepts_exactly_four_tags
        (host : Host) (lvl : string) (sep : JsValue) (m : Machine) :
  (forall e : Exception,
      rendering host m = Throw e ->
      _printTimestamp host lvl sep m = (Throw e, m))
  /\ (forall t : string,
         rendering host m = Normal t ->
         (fst (_printTimestamp host lvl sep m) = Normal tt
          <-> In lvl ["log"; "info"; "warn"; "error"]%string)
         /\ (~ In lvl ["log"; "info"; "warn"; "error"]%string ->
             _printTimestamp host lvl sep m
             = (Throw (mkException Error undefined_logLevel_message), m))).
Proof.
  split; [intros e He; now apply printTimestamp_throws |].
  intros t Ht.
  split; [| apply (printTimestamp_undefined_level host lvl sep m t Ht)].
  split.
  - intros H.
    destruct (in_dec string_dec lvl ["log"; "info"; "warn"; "error"]%string)
      as [Hin | Hout]; [exact Hin |].
    rewrite (printTimestamp_undefined_level host lvl sep m t Ht Hout) in H.
    discriminate.
  - intros [<- | [<- | [<- | [<- | []]]]].
    + rewrite (printTimestamp_stdout host "log" sep m t Ht); simpl; tauto.
    + rewrite (printTimestamp_stdout host "info" sep m t Ht); simpl; tauto.
    + rewrite (printTimestamp_stdout host "warn" sep m t Ht); simpl; tauto.
    + now rewrite (printTimestamp_stderr host sep m t Ht).
Qed.

(** * Further properties of construction *)

Lemma locales_block_rejects (v : JsValue) (m : Machine) :
  string_or_omitted v = false ->
  locales_block v m
  = (Throw (mkException TypeError "The argument `locales` must be an String."),
     m).
Proof.
  unfold string_or_omitted, locales_block.
  destruct (is_undefined v); cbn [orb negb when]; [discriminate |].
  intros ->. reflexivity.
Qed.

Lemma options_block_rejects (v : JsValue) (m : Machine) :
  object_or_omitted v = false ->
  options_block v m
  = (Throw (mkException TypeError "The argument `options` must be an Object."),
     m).
Proof.
  unfold object_or_omitted, options_block.
  destruct (is_undefined v); cbn [orb negb when]; [discriminate |].
  intros ->. reflexivity.
Qed.

Lemma separator_block_rejects (v : JsValue) (m : Machine) :
  string_or_omitted v = false ->
  separator_block v m
  = (Throw (mkException TypeError
              "The argument `separator` must be an String."),
     m).
Proof.
  unfold string_or_omitted, separator_block.
  destruct (is_undefined v); cbn [orb negb when]; [discriminate |].
  intros ->. reflexivity.
Qed.

Lemma quote_block_rejects (q : JsValue) (m : Machine) :
  quote_accepted q = false ->
  quote_block q m
  = (Throw
       (if negb (is_class "[object Array]" q) then
          mkException TypeError "The argument `quote` must be an Array."
        else if (length_ q <? 1) || (length_ q >? 2) then
          mkException RangeError
            "The argument `quote` must be an Array of length 1 or 2."
        else
          mkException TypeError
            "The contents of the Array of arguments `quote` must be a String."),
     m).
Proof.
  unfold quote_accepted, quote_block.
  destruct (is_undefined q); cbn [orb negb when]; [discriminate |].
  destruct (is_class "[object Array]" q); cbn [andb negb]; [| reflexivity].
  destruct ((length_ q <? 1) || (length_ q >? 2)); cbn [andb negb];
    [reflexivity |].
  intros ->. reflexivity.
Qed.

Lemma new_of_constructor (l o q s : JsValue) (w : World)
      (r : Completion unit) (f : Fields) :
  constructor_ l o q s (mkMachine initial_fields w) = (r, mkMachine f w) ->
  new_ConsoleLocaleTimestamp l o q s w
  = (match r with Normal _ => Normal f | Throw e => Throw e end, w).
Proof.
  intros H. unfold new_ConsoleLocaleTimestamp. rewrite H. now destruct r.
Qed.

Lemma new_rejects_locales (l o q s : JsValue) (w : World) :
  string_or_omitted l = false ->
  new_ConsoleLocaleTimestamp l o q s w
  = (Throw (mkException TypeError "The argument `locales` must be an String."),
     w).
Proof.
  intros Hl. apply (new_of_constructor l o q s w (Throw _) initial_fields).
  unfold constructor_. apply bind_throw. now apply locales_block_rejects.
Qed.

Lemma new_rejects_options (l o q s : JsValue) (w : World) :
  string_or_omitted l = true ->
  object_or_omitted o = false ->
  new_ConsoleLocaleTimestamp l o q s w
  = (Throw (mkException TypeError "The argument `options` must be an Object."),
     w).
Proof.
  intros Hl Ho.
  apply (new_of_constructor l o q s w (Throw _)
           (with_locales l initial_fields)).
  unfold constructor_.
  rewrite (bind_normal _ _ _ _ _ (locales_block_ok l _ Hl)), after_locales.
  apply bind_throw. now apply options_block_rejects.
Qed.

Lemma new_rejects_quote (l o q s : JsValue) (w : World) :
  string_or_omitted l = true ->
  object_or_omitted o = true ->
  quote_accepted q = false ->
  new_ConsoleLocaleTimestamp l o q s w
  = (Throw
       (if negb (is_class "[object Array]" q) then
          mkException TypeError "The argument `quote` must be an Array."
        else if (length_ q <? 1) || (length_ q >? 2) then
          mkException RangeError
            "The argument `quote` must be an Array of length 1 or 2."
        else
          mkException TypeError
            "The contents of the Array of arguments `quote` must be a String."),
     w).
Proof.
  intros Hl Ho Hq.
  apply (new_of_constructor l o q s w (Throw _)
           (with_options o (with_locales l initial_fields))).
  unfold constructor_.
  rewrite (bind_normal _ _ _ _ _ (locales_block_ok l _ Hl)), after_locales.
  rewrite (bind_normal _ _ _ _ _ (options_block_ok o _ Ho)), after_options.
  apply bind_throw. now apply quote_block_rejects.
Qed.

Lemma new_rejects_separator (l o q s : JsValue) (w : World) :
  string_or_omitted l = true ->
  object_or_omitted o = true ->
  quote_accepted q = true ->
  string_or_omitted s = false ->
  new_ConsoleLocaleTimestamp l o q s w
  = (Throw (mkException TypeError
              "The argument `separator` must be an String."),
     w).
Proof.
  intros Hl Ho Hq Hs.
  apply (new_of_constructor l o q s w (Throw _)
           (mkFields l o (open_of q) (close_of q) (JsString " "))).
  unfold constructor_.
  rewrite (bind_normal _ _ _ _ _ (locales_block_ok l _ Hl)), after_locales.
  rewrite (bind_normal _ _ _ _ _ (options_block_ok o _ Ho)), after_options.
  rewrite (bind_normal _ _ _ _ _ (quote_block_ok q _ Hq)), after_quote.
  now apply separator_block_rejects.
Qed.

Lemma new_accepts (l o q s : JsValue) (w : World) :
  string_or_omitted l = true ->
  object_or_omitted o = true ->
  quote_accepted q = true ->
  string_or_omitted s = true ->
  new_ConsoleLocaleTimestamp l o q s w
  = (Normal (mkFields l o (open_of q) (close_of q) (separator_of s)), w).
Proof.
  intros Hl Ho Hq Hs.
  destruct (new_run l o q s w) as (r & f & Hstop & ->).
  inversion Hstop; subst; congruence.
Qed.

(** X7.  The arguments are validated in the order locales, options, quote,
    separator, and the first one rejected decides the exception, whatever the
    later ones are. *)
Theorem first_rejected_argument_decides
        (l o q s : JsValue) (w : World) :
  (provided l -> ~ is_string l ->
   new_ConsoleLocaleTimestamp l o q s w
   = (Throw (mkException TypeError
               "The argument `locales` must be an String."), w))
  /\ (string_or_omitted l = true ->
      provided o -> ~ is_key_value_object o ->
      new_ConsoleLocaleTimestamp l o q s w
      = (Throw (mkException TypeError
                  "The argument `options` must be an Object."), w))
  /\ (string_or_omitted l = true -> object_or_omitted o = true ->
      quote_accepted q = false ->
      exists e,
        new_ConsoleLocaleTimestamp l o q s w = (Throw e, w)
        /\ In (message e)
              ["The argument `quote` must be an Array.";
               "The argument `quote` must be an Array of length 1 or 2.";
               "The contents of the Array of arguments `quote` must be a String."]%string)
  /\ (string_or_omitted l = true -> object_or_omitted o = true ->
      quote_accepted q = true ->
      provided s -> ~ is_string s ->
      new_ConsoleLocaleTimestamp l o q s w
      = (Throw (mkException TypeError
                  "The argument `separator` must be an String."), w)).
Proof.
  split; [| split; [| split]].
  - intros Hp Hn. apply new_rejects_locales.
    now apply string_or_omitted_false.
  - intros Hl Hp Hn. apply new_rejects_options; [exact Hl |].
    now apply object_or_omitted_false.
  - intros Hl Ho Hq. eexists. split.
    + now apply new_rejects_quote.
    + destruct (negb (is_class "[object Array]" q));
        [| destruct ((length_ q <? 1) || (length_ q >? 2))]; simpl; tauto.
  - intros Hl Ho Hq Hp Hn. apply new_rejects_separator; auto.
    now apply string_or_omitted_false.
Qed.

Lemma provided_sequence (q : JsValue) : is_sequence q -> provided q.
Proof. intros [elems ->]. discriminate. Qed.

(** X8.  Inside the quote block the tests run in a fixed order: a value that
    is not an array gets the [TypeError] about the array; an array of length
    0 or of length 3 and more gets the [RangeError], whatever it holds; only
    an array of length 1 or 2 has its contents examined. *)
Theorem quote_checks_in_order (l o q s : JsValue) (w : World) :
  string_or_omitted l = true ->
  object_or_omitted o = true ->
  provided q ->
  (~ is_sequence q ->
   new_ConsoleLocaleTimestamp l o q s w
   = (Throw (mkException TypeError
               "The argument `quote` must be an Array."), w))
  /\ (is_sequence q -> length_ q = 0 \/ length_ q >= 3 ->
      new_ConsoleLocaleTimestamp l o q s w
      = (Throw (mkException RangeError
                  "The argument `quote` must be an Array of length 1 or 2."),
         w))
  /\ (is_sequence q -> 1 <= length_ q <= 2 ->
      contains_non_string_element q ->
      new_ConsoleLocaleTimestamp l o q s w
      = (Throw (mkException TypeError
                  "The contents of the Array of arguments `quote` must be a String."),
         w)).
Proof.
  intros Hl Ho Hp. split; [| split].
  - intros Hn.
    rewrite new_rejects_quote; auto.
    + apply (not_true_false _ _ (is_class_array q)) in Hn. now rewrite Hn.
    + apply quote_accepted_false. split; [assumption | tauto].
  - intros Hseq Hlen.
    rewrite new_rejects_quote; auto.
    + apply is_class_array in Hseq. rewrite Hseq. cbn [negb].
      apply length_out_of_range in Hlen. now rewrite Hlen.
    + apply quote_accepted_false. split; [assumption | tauto].
  - intros Hseq Hlen Hc.
    rewrite new_rejects_quote; auto.
    + apply is_class_array in Hseq. rewrite Hseq. cbn [negb].
      destruct ((length_ q <? 1) || (length_ q >? 2)) eqn:Hb; [| reflexivity].
      apply length_out_of_range in Hb. lia.
    + apply quote_accepted_false. split; [assumption | tauto].
Qed.

Lemma quote_checks_in_order_witness :
  new_ConsoleLocaleTimestamp JsUndefined JsUndefined
    (JsArray [Some (JsNumber 1); Some (JsNumber 2); Some (JsNumber 3)])
    JsUndefined (mkWorld 0 [])
  = (Throw (mkException RangeError
              "The argument `quote` must be an Array of length 1 or 2."),
     mkWorld 0 []).
Proof.
  apply (quote_checks_in_order JsUndefined JsUndefined
           (JsArray [Some (JsNumber 1); Some (JsNumber 2); Some (JsNumber 3)])
           JsUndefined (mkWorld 0 []));
    try reflexivity.
  - discriminate.
  - eexists. reflexivity.
  - right. vm_compute. discriminate.
Defined.

(** X9.  Construction throws a [RangeError] exactly when the locales and
    the options are accepted and the quote is an array of length 0 or of
    length 3 and more; every other rejection is a [TypeError]. *)
Theorem range_error_iff_quote_length (l o q s : JsValue) (w : World) :
  ((exists e, fst (new_ConsoleLocaleTimestamp l o q s w) = Throw e
              /\ kind e = RangeError)
   <-> (string_or_omitted l = true /\ object_or_omitted o = true
        /\ is_sequence q /\ (length_ q = 0 \/ length_ q >= 3)))
  /\ (forall e, fst (new_ConsoleLocaleTimestamp l o q s w) = Throw e ->
                kind e = RangeError \/ kind e = TypeError).
Proof.
  destruct (string_or_omitted l) eqn:Hl.
  2: { rewrite new_rejects_locales by exact Hl. cbn [fst]. split; [split |].
       - intros (e & [= <-] & Hk). discriminate.
       - intros (Hf & _). discriminate.
       - intros e [= <-]. now right. }
  destruct (object_or_omitted o) eqn:Ho.
  2: { rewrite new_rejects_options by assumption. cbn [fst].
       split; [split |].
       - intros (e & [= <-] & Hk). discriminate.
       - intros (_ & Hf & _). discriminate.
       - intros e [= <-]. now right. }
  destruct (quote_accepted q) eqn:Hq.
  - assert (Hno : ~ (is_sequence q /\ (length_ q = 0 \/ length_ q >= 3))).
    { intros [Hseq Hlen].
      assert (Hf : quote_accepted q = false).
      { apply quote_accepted_false. split; [now apply provided_sequence |].
        tauto. }
      congruence. }
    destruct (string_or_omitted s) eqn:Hs.
    + rewrite new_accepts by assumption. cbn [fst]. split; [split |].
      * intros (e & He & _). discriminate.
      * intros (_ & _ & H). now destruct Hno.
      * intros e He. discriminate.
    + rewrite new_rejects_separator by assumption. cbn [fst].
      split; [split |].
      * intros (e & [= <-] & Hk). discriminate.
      * intros (_ & _ & H). now destruct Hno.
      * intros e [= <-]. now right.
  - rewrite new_rejects_quote by assumption. cbn [fst].
    destruct (is_class "[object Array]" q) eqn:Ha; cbn [negb].
    + destruct ((length_ q <? 1) || (length_ q >? 2)) eqn:Hb.
      * split; [split |].
        -- intros _. repeat split; [now apply is_class_array |].
           now apply length_out_of_range.
        -- intros _. eexists. split; reflexivity.
        -- intros e [= <-]. now left.
      * split; [split |].
        -- intros (e & [= <-] & Hk). discriminate.
        -- intros (_ & _ & _ & Hlen). apply length_out_of_range in Hlen.
           congruence.
        -- intros e [= <-]. now right.
    + split; [split |].
      * intros (e & [= <-] & Hk). discriminate.
      * intros (_ & _ & Hseq & _). apply is_class_array in Hseq. congruence.
      * intros e [= <-]. now right.
Qed.

(** X10.  Construction followed by a call: with accepted locales and
    options, an instance built with the quotes [a] and [b] and the separator
    [sep] logs by asking the formatter for the instant under those locales
    and options; when it returns, [log] writes [a], the rendering, [b] and
    [sep] to the standard output and then calls [console.log] with the data;
    when it throws, [log] ends with that exception, nothing written and
    nothing called.  An instance built without quote and separator writes
    the rendering followed by one space. *)
Theorem constructed_instance_logs_quoted_time
        (host : Host) (l o : JsValue) (a b sep : string)
        (data : list JsValue) (w0 w : World) :
  string_or_omitted l = true ->
  object_or_omitted o = true ->
  (exists self,
      new_ConsoleLocaleTimestamp l o
        (JsArray [Some (JsString a); Some (JsString b)]) (JsString sep) w0
      = (Normal self, w0)
      /\ log host data (mkMachine self w)
         = match toLocaleTimeString host (now w) l o with
           | Normal t =>
               (Normal tt,
                extended (mkMachine self w)
                  [StdoutWrite (a ++ t ++ b ++ sep)%string;
                   ConsoleCall console_log data])
           | Throw e => (Throw e, mkMachine self w)
           end)
  /\ (exists self,
         new_ConsoleLocaleTimestamp l o JsUndefined JsUndefined w0
         = (Normal self, w0)
         /\ log host data (mkMachine self w)
            = match toLocaleTimeString host (now w) l o with
              | Normal t =>
                  (Normal tt,
                   extended (mkMachine self w)
                     [StdoutWrite (t ++ " ")%string;
                      ConsoleCall console_log data])
              | Throw e => (Throw e, mkMachine self w)
              end).
Proof.
  intros Hl Ho. split.
  - eexists. split; [now apply new_accepts |].
    destruct (toLocaleTimeString host (now w) l o) as [t | e] eqn:Ht.
    + etransitivity;
        [ apply (stamped_stdout host "log" console_log data _ t);
          [exact Ht | simpl; tauto]
        | reflexivity ].
    + etransitivity;
        [ apply (stamped_throws host "log" JsUndefined console_log data _ e);
          exact Ht
        | reflexivity ].
  - eexists. split; [now apply new_accepts |].
    destruct (toLocaleTimeString host (now w) l o) as [t | e] eqn:Ht.
    + etransitivity;
        [ apply (stamped_stdout host "log" console_log data _ t);
          [exact Ht | simpl; tauto]
        | reflexivity ].
    + etransitivity;
        [ apply (stamped_throws host "log" JsUndefined console_log data _ e);
          exact Ht
        | reflexivity ].
Qed.

Lemma constructed_instance_logs_quoted_time_witness :
  exists self,
    new_ConsoleLocaleTimestamp (JsString "en-US") JsUndefined
      (JsArray [Some (JsString "["); Some (JsString "]")]) (JsString " - ")
      (mkWorld 0 [])
    = (Normal self, mkWorld 0 [])
    /\ log sample_host [JsString "Hello"] (mkMachine self (mkWorld 45296000 []))
       = (Normal tt,
          extended (mkMachine self (mkWorld 45296000 []))
            [StdoutWrite "[12:34:56 PM] - ";
             ConsoleCall console_log [JsString "Hello"]]).
Proof.
  exact (proj1 (constructed_instance_logs_quoted_time sample_host
                  (JsString "en-US") JsUndefined "[" "]" " - "
                  [JsString "Hello"] (mkWorld 0 []) (mkWorld 45296000 [])
                  eq_refl eq_refl)).
Defined.

Lemma string_or_omitted_true (v : JsValue) :
  string_or_omitted v = true <-> v = JsUndefined \/ is_string v.
Proof.
  unfold string_or_omitted. rewrite orb_true_iff, is_class_string.
  destruct v; cbn; intuition congruence.
Qed.

Lemma object_or_omitted_true (v : JsValue) :
  object_or_omitted v = true <-> v = JsUndefined \/ is_key_value_object v.
Proof.
  unfold object_or_omitted. rewrite orb_true_iff, is_class_object.
  destruct v; cbn; intuition congruence.
Qed.

Lemma index_of_accepted (q : JsValue) (i : nat) :
  quote_accepted q = true -> is_undefined q = false ->
  string_or_omitted (index q i) = true.
Proof.
  unfold quote_accepted. intros H Hu. rewrite Hu in H. cbn [orb] in H.
  apply andb_true_iff in H as [_ Hevery].
  unfold every in Hevery. rewrite forallb_forall in Hevery.
  unfold index. destruct (nth_error (elements q) i) as [[v |] |] eqn:Hn;
    try reflexivity.
  apply nth_error_In in Hn. apply Hevery in Hn.
  unfold string_or_omitted. rewrite Hn. apply orb_true_r.
Qed.

Lemma slot_of_index (a b : JsValue) :
  index (JsArray [slot_of a; slot_of b]) 0 = a
  /\ index (JsArray [slot_of a; slot_of b]) 1 = b.
Proof. split; [now destruct a | now destruct b]. Qed.

(** X11.  The configurations the constructor can produce are exactly those
    whose locales are [undefined] or a string, whose options are [undefined]
    or a key/value object, whose separator is a string, and whose quotes are
    strings or, from the hole of a sparse array, [undefined]. *)
Theorem reachable_configurations (self : Fields) :
  (exists l o q s w w',
      new_ConsoleLocaleTimestamp l o q s w = (Normal self, w'))
  <-> ((locales self = JsUndefined \/ is_string (locales self))
       /\ (options self = JsUndefined \/ is_key_value_object (options self))
       /\ (openQuote self = JsUndefined \/ is_string (openQuote self))
       /\ (closeQuote self = JsUndefined \/ is_string (closeQuote self))
       /\ is_string (separator self)).
Proof.
  split.
  - intros (l & o & q & s & w & w' & Hnew).
    destruct (new_run l o q s w) as (r & f & Hstop & Hrun).
    rewrite Hrun in Hnew. destruct Hstop; try discriminate.
    injection Hnew as <- _. cbn.
    repeat split.
    + now apply string_or_omitted_true.
    + now apply object_or_omitted_true.
    + apply string_or_omitted_true. unfold open_of.
      destruct (is_undefined q) eqn:Hu; [reflexivity |].
      now apply index_of_accepted.
    + apply string_or_omitted_true. unfold close_of.
      destruct (is_undefined q) eqn:Hu; [reflexivity |].
      destruct (length_ q =? 1); now apply index_of_accepted.
    + unfold separator_of.
      destruct (is_undefined s) eqn:Hu; [now exists " "%string |].
      match goal with
      | Hs : string_or_omitted s = true |- _ =>
          apply string_or_omitted_true in Hs as [-> | Hs];
          [discriminate | exact Hs]
      end.
  - intros (Hl & Ho & Ha & Hb & Hs).
    destruct self as [l o a b s]. cbn in *.
    exists l, o, (JsArray [slot_of a; slot_of b]), s,
           (mkWorld 0 []), (mkWorld 0 []).
    rewrite new_accepts.
    + unfold open_of, close_of. cbn [is_undefined].
      change (length_ (JsArray [slot_of a; slot_of b]) =? 1) with false.
      destruct (slot_of_index a b) as [-> ->].
      unfold separator_of. destruct Hs as [s' ->]. reflexivity.
    + now apply string_or_omitted_true.
    + now apply object_or_omitted_true.
    + destruct Ha as [-> | [a' ->]]; destruct Hb as [-> | [b' ->]];
        reflexivity.
    + apply string_or_omitted_true. now right.
Qed.

Lemma accepted_length (q : JsValue) :
  quote_accepted q = true -> is_undefined q = false -> 1 <= length_ q <= 2.
Proof.
  unfold quote_accepted. intros H Hu. rewrite Hu in H. cbn [orb] in H.
  apply andb_true_iff in H as [H _]. apply andb_true_iff in H as [_ H].
  apply negb_true_iff in H.
  destruct (Z.lt_ge_cases (length_ q) 1) as [Hlt | Hge].
  - apply Z.ltb_lt in Hlt. rewrite Hlt in H. discriminate.
  - destruct (Z.lt_ge_cases 2 (length_ q)) as [Hgt | Hle]; [| lia].
    apply Z.ltb_lt in Hgt. rewrite Z.gtb_ltb, Hgt, orb_true_r in H.
    discriminate.
Qed.

Lemma dense_index_string (q : JsValue) (i : nat) :
  quote_accepted q = true -> is_undefined q = false ->
  (forall slot, In slot (elements q) -> slot <> None) ->
  Z.of_nat i < length_ q ->
  is_string (index q i).
Proof.
  intros Hacc Hu Hdense Hi.
  pose proof (index_of_accepted q i Hacc Hu) as Hidx.
  unfold index in *.
  destruct (nth_error (elements q) i) as [[v |] |] eqn:Hn.
  - apply string_or_omitted_true in Hidx as [-> | Hidx]; [| exact Hidx].
    exfalso. unfold quote_accepted in Hacc. rewrite Hu in Hacc.
    cbn [orb] in Hacc. apply andb_true_iff in Hacc as [_ Hevery].
    unfold every in Hevery. rewrite forallb_forall in Hevery.
    apply nth_error_In in Hn. apply Hevery in Hn. discriminate.
  - exfalso. apply (Hdense None); [| reflexivity].
    eapply nth_error_In. exact Hn.
  - apply nth_error_None in Hn. unfold length_ in Hi. lia.
Qed.

(** X12.  When the quote is omitted or is an array without holes, the
    quotes of the instance are strings, like its separator: the declared
    types of the private fields hold at run time. *)
Theorem dense_quote_gives_string_fields
        (l o q s : JsValue) (w w' : World) (self : Fields) :
  new_ConsoleLocaleTimestamp l o q s w = (Normal self, w') ->
  (forall slot, In slot (elements q) -> slot <> None) ->
  is_string (openQuote self) /\ is_string (closeQuote self)
  /\ is_string (separator self).
Proof.
  intros Hnew Hdense.
  destruct (new_run l o q s w) as (r & f & Hstop & Hrun).
  rewrite Hrun in Hnew.
  destruct Hstop as [ | | | | Hl Ho Hacc Hs]; try discriminate.
  injection Hnew as <- _. cbn [openQuote closeQuote separator].
  split; [| split].
  - unfold open_of. destruct (is_undefined q) eqn:Hu; [now exists ""%string |].
    apply dense_index_string; auto.
    pose proof (accepted_length q Hacc Hu). lia.
  - unfold close_of. destruct (is_undefined q) eqn:Hu; [now exists ""%string |].
    pose proof (accepted_length q Hacc Hu) as Hlen.
    destruct (length_ q =? 1) eqn:H1.
    + apply dense_index_string; auto. lia.
    + apply Z.eqb_neq in H1. apply dense_index_string; auto. lia.
  - unfold separator_of.
    destruct (is_undefined s) eqn:Hu; [now exists " "%string |].
    apply string_or_omitted_true in Hs as [-> | Hs]; [discriminate | exact Hs].
Qed.

Lemma dense_quote_gives_string_fields_witness :
  is_string (openQuote sample_instance)
  /\ is_string (closeQuote sample_instance)
  /\ is_string (separator sample_instance).
Proof.
  apply (dense_quote_gives_string_fields (JsString "en-US") JsUndefined
           sample_quote (JsString " - ") (mkWorld 0 []) (mkWorld 0 [])
           sample_instance).
  - reflexivity.
  - intros slot [<- | [<- | []]]; discriminate.
Defined.

(** ** The published build *)

Lemma bind_as_plain_Error {A B : Type} (c c' : M A) (k k' : A -> M B) :
  (forall m, c' m = as_plain_Error (c m)) ->
  (forall a m, k' a m = as_plain_Error (k a m)) ->
  forall m, bind c' k' m = as_plain_Error (bind c k m).
Proof.
  intros Hc Hk m. unfold bind. rewrite Hc.
  destruct (c m) as [[a | e] m1]; cbn; [apply Hk | reflexivity].
Qed.

Lemma dist_locales_block_agrees (v : JsValue) (m : Machine) :
  dist_locales_block v m = as_plain_Error (locales_block v m).
Proof.
  unfold dist_locales_block, locales_block.
  destruct (is_undefined v), (is_class "[object String]" v); reflexivity.
Qed.

Lemma dist_options_block_agrees (v : JsValue) (m : Machine) :
  dist_options_block v m = as_plain_Error (options_block v m).
Proof.
  unfold dist_options_block, options_block.
  destruct (is_undefined v), (is_class "[object Object]" v); reflexivity.
Qed.

Lemma dist_quote_block_agrees (q : JsValue) (m : Machine) :
  dist_quote_block q m = as_plain_Error (quote_block q m).
Proof.
  unfold dist_quote_block, quote_block.
  destruct (is_undefined q), (is_class "[object Array]" q),
    ((length_ q <? 1) || (length_ q >? 2)),
    (every (is_class "[object String]") q); reflexivity.
Qed.

Lemma dist_separator_block_agrees (v : JsValue) (m : Machine) :
  dist_separator_block v m = as_plain_Error (separator_block v m).
Proof.
  unfold dist_separator_block, separator_block.
  destruct (is_undefined v), (is_class "[object String]" v); reflexivity.
Qed.

(** X13.  The constructor of the published build and the constructor of the
    source agree on every input: they accept the same arguments, leave the
    same fields, stop at the same block with the same message; the build
    only throws a plain [Error] where the source throws a [TypeError] or a
    [RangeError]. *)
Theorem published_build_differs_in_error_class_only
        (l o q s : JsValue) (m : Machine) :
  dist_constructor_ l o q s m = as_plain_Error (constructor_ l o q s m)
  /\ (forall e m',
        dist_constructor_ l o q s m = (Throw e, m') -> kind e = Error)
  /\ (forall e m',
        constructor_ l o q s (mkMachine initial_fields (world m))
        = (Throw e, m') -> kind e <> Error).
Proof.
  assert (Hagree : forall m0,
             dist_constructor_ l o q s m0
             = as_plain_Error (constructor_ l o q s m0)).
  { intros m0. unfold dist_constructor_, constructor_.
    apply bind_as_plain_Error; [apply dist_locales_block_agrees |].
    intros _. apply bind_as_plain_Error; [apply dist_options_block_agrees |].
    intros _. apply bind_as_plain_Error; [apply dist_quote_block_agrees |].
    intros _. apply dist_separator_block_agrees. }
  split; [apply Hagree | split].
  - intros e m' H. rewrite Hagree in H.
    destruct (constructor_ l o q s m) as [[[] | e0] m1]; cbn in H;
      [discriminate |].
    now injection H as <- _.
  - intros e m' H.
    destruct (constructor_run l o q s (world m)) as (r & f & Hrun & Hstop).
    rewrite H in Hrun. injection Hrun as <- _.
    inversion Hstop as [e0 _ Hk | e0 _ _ Hk | e0 _ _ _ Hk | e0 _ _ _ _ Hk | ];
      subst; destruct Hk as [Hk | Hk]; rewrite Hk; discriminate.
Qed.

(** ** Rejection against the shapes of the specification *)

(** X14.  The constructor rejects only arguments that violate their shape,
    and when the quote is omitted or is an array without holes it rejects
    every such violation, with a [TypeError] or a [RangeError]; in any case
    it leaves the world as it was. *)
Theorem dense_construction_fails_iff_shape_violated
        (l o q s : JsValue) (w : World) :
  ((exists e, fst (new_ConsoleLocaleTimestamp l o q s w) = Throw e) ->
   violates_shape l o q s)
  /\ ((forall slot, In slot (elements q) -> slot <> None) ->
      violates_shape l o q s ->
      exists e, fst (new_ConsoleLocaleTimestamp l o q s w) = Throw e
                /\ InvalidArgument e)
  /\ snd (new_ConsoleLocaleTimestamp l o q s w) = w.
Proof.
  destruct (new_run l o q s w) as (r & f & Hstop & ->). cbn [fst snd].
  split; [| split; [| reflexivity]].
  - intros [e He]. unfold violates_shape.
    destruct r as [[] | e0]; [discriminate |].
    inversion Hstop; subst.
    + left. now apply string_or_omitted_false.
    + right; left. now apply object_or_omitted_false.
    + right; right; left.
      match goal with
      | Hq : quote_accepted q = false |- _ =>
          apply quote_accepted_false in Hq
            as [Hp [Hq | [Hq | [Hq | Hq]]]]
      end; split; auto.
      right; right; right. now apply contains_has_position.
    + right; right; right. now apply string_or_omitted_false.
  - intros Hdense Hv.
    destruct r as [[] | e0].
    + exfalso. inversion Hstop; subst. unfold violates_shape in Hv.
      destruct Hv as [Hv | [Hv | [[Hp Hv] | Hv]]].
      * apply string_or_omitted_false in Hv. congruence.
      * apply object_or_omitted_false in Hv. congruence.
      * assert (Hq : quote_accepted q = false).
        { apply quote_accepted_false. split; [exact Hp |].
          destruct Hv as [Hv | [Hv | [Hv | Hv]]]; auto.
          right; right; right. now apply dense_has_position. }
        congruence.
      * apply string_or_omitted_false in Hv. congruence.
    + exists e0. split; [reflexivity |]. inversion Hstop; assumption.
Qed.
